(** * gemini_podcast_kb: ingestion and query orchestration

    A shallow embedding of [ingest_pdfs.py], [query.py] and the core functions
    of [app.py], and the properties their specification states about them.

    Python [str] values are lists of characters.  A character is an 8-bit
    code point ([ascii], read as the Latin-1 range U+0000..U+00FF of Unicode);
    on that range [str.lower], [str.isalnum] and [str.isspace] are written
    out below as CPython computes them.  The state of the remote service,
    the folders, the environment and the random source are the fields of an
    explicit [World] that every effectful function threads; the answers of
    the remote service and of the file system are parameters. *)

From Stdlib Require Import String Ascii Bool Arith ZArith Lia DecimalString List.
Import ListNotations.

Local Open Scope list_scope.

(* ================================================================== *)
(** ** Python strings                                                  *)
(* ================================================================== *)

Definition str := list ascii.

(** A string literal of the source. *)
Definition lit (s : string) : str := list_ascii_of_string s.

Definition chr (n : nat) : ascii := ascii_of_nat n.
Definition ord (c : ascii) : nat := nat_of_ascii c.

Definition NEWLINE : ascii := chr 10.
Definition SPACE : ascii := chr 32.
Definition HYPHEN : ascii := chr 45.
Definition DQUOTE : ascii := chr 34.

Definition within (lo hi : nat) (c : ascii) : bool :=
  (lo <=? ord c) && (ord c <=? hi).

Fixpoint str_eqb (a b : str) : bool :=
  match a, b with
  | [], [] => true
  | x :: a', y :: b' => Ascii.eqb x y && str_eqb a' b'
  | _, _ => false
  end.

(** Truthiness of a string: [bool(s)]. *)
Definition truthy (s : str) : bool :=
  match s with [] => false | _ :: _ => true end.

(** [a or b] on strings. *)
Definition str_or (a b : str) : str := if truthy a then a else b.

(** [a or b] where [a] may be [None]. *)
Definition opt_or (a : option str) (b : str) : str :=
  match a with
  | Some s => str_or s b
  | None => b
  end.

(** Truthiness of an optional string: [None] and the empty string are falsy. *)
Definition opt_truthy (a : option str) : bool :=
  match a with
  | Some s => truthy s
  | None => false
  end.

(** [s.replace(old, new)] for one-character [old] and [new]. *)
Definition replace_char (old new : ascii) (s : str) : str :=
  map (fun c => if Ascii.eqb c old then new else c) s.

(** [s[:n]] for a literal, non-negative bound. *)
Definition prefix (n : nat) (s : str) : str := firstn n s.

(** [xs[:n]] for an [int] bound: a negative bound counts from the end. *)
Definition slice_to {A : Type} (n : Z) (xs : list A) : list A :=
  if (0 <=? n)%Z then firstn (Z.to_nat n) xs
  else firstn (length xs - Z.to_nat (- n)) xs.

(** [str.isspace] of one character (the characters [str.strip()] removes). *)
Definition isspace (c : ascii) : bool :=
  within 9 13 c || within 28 32 c
  || Nat.eqb (ord c) 133 || Nat.eqb (ord c) 160.

(** [str.isalnum] of one character: letters, decimal digits, and the
    characters Unicode classes as digits or numerics. *)
Definition isalnum (c : ascii) : bool :=
  within 48 57 c || within 65 90 c || within 97 122 c
  || Nat.eqb (ord c) 170 || within 178 179 c || Nat.eqb (ord c) 181
  || within 185 186 c || within 188 190 c
  || within 192 214 c || within 216 246 c || within 248 255 c.

(** [str.lower] of one character. *)
Definition lower_char (c : ascii) : ascii :=
  if within 65 90 c || within 192 214 c || within 216 222 c
  then chr (ord c + 32) else c.

Definition lower (s : str) : str := map lower_char s.

Fixpoint lstrip_by (p : ascii -> bool) (s : str) : str :=
  match s with
  | [] => []
  | c :: s' => if p c then lstrip_by p s' else s
  end.

Definition rstrip_by (p : ascii -> bool) (s : str) : str :=
  rev (lstrip_by p (rev s)).

(** [s.strip()] and [s.strip(chars)]: both ends, by a character class. *)
Definition strip_by (p : ascii -> bool) (s : str) : str :=
  rstrip_by p (lstrip_by p s).

Definition strip (s : str) : str := strip_by isspace s.

Definition mem_char (chars : str) (c : ascii) : bool :=
  existsb (Ascii.eqb c) chars.

Definition strip_chars (chars : str) (s : str) : str :=
  strip_by (mem_char chars) s.

(** [s.split(sep)] for a one-character separator: never an empty list. *)
Fixpoint split_on (sep : ascii) (s : str) : list str :=
  match s with
  | [] => [[]]
  | c :: s' =>
      if Ascii.eqb c sep then [] :: split_on sep s'
      else match split_on sep s' with
           | [] => [[c]]
           | l :: ls => (c :: l) :: ls
           end
  end.

(** [s.rfind(c)]: the last index of [c], [-1] when absent. *)
Fixpoint rfind (c : ascii) (s : str) : Z :=
  match s with
  | [] => (-1)%Z
  | x :: s' =>
      let r := rfind c s' in
      if (0 <=? r)%Z then (r + 1)%Z
      else if Ascii.eqb x c then 0%Z else (-1)%Z
  end.

Definition endswith (suffix s : str) : bool :=
  str_eqb (skipn (length s - length suffix) s) suffix
  && (length suffix <=? length s).

(* ================================================================== *)
(** ** query.py / app.py: metadata filter and citation snippets         *)
(* ================================================================== *)

(** [build_metadata_filter] of query.py. *)
Definition build_metadata_filter (source_type : option str) : option str :=
  if negb (opt_truthy source_type) then None
  else
    Some (lit "source_type=" ++ [DQUOTE] ++ opt_or source_type [] ++ [DQUOTE]).

(** The same three lines as ask_question and suggest_questions of app.py
    write them. *)
Definition app_metadata_filter (source_type : option str) : option str :=
  let metadata_filter := None in
  if opt_truthy source_type
  then Some (lit "source_type=" ++ [DQUOTE] ++ opt_or source_type [] ++ [DQUOTE])
  else metadata_filter.

Definition SNIPPET_CAP : nat := 400.
Definition ELLIPSIS : str := lit "...".

(** app.py, ask_question:
    [text = (ctx.text or "").replace("\n", " ")]
    [snippet = text[:400] + ("..." if len(text) > 400 else "")]. *)
Definition app_snippet (ctx_text : option str) : str :=
  let text := replace_char NEWLINE SPACE (opt_or ctx_text []) in
  prefix SNIPPET_CAP text
    ++ (if SNIPPET_CAP <? length text then ELLIPSIS else []).

(** query.py, main:
    [text = ctx.text or ""]
    [snippet = text[:400].replace("\n", " ") + ("..." if len(text) > 400 else "")]. *)
Definition query_snippet (ctx_text : option str) : str :=
  let text := opt_or ctx_text [] in
  replace_char NEWLINE SPACE (prefix SNIPPET_CAP text)
    ++ (if SNIPPET_CAP <? length text then ELLIPSIS else []).

(* ================================================================== *)
(** ** ingest_pdfs.py: the resource namer                              *)
(* ================================================================== *)

(** [file_resource_name], with the value of [uuid.uuid4().hex] it draws
    given as [hex]. *)
Definition file_resource_name_with (hex : str) (value : str) : str :=
  let slug :=
    strip_chars [HYPHEN]
      (map (fun c => if isalnum c then c else HYPHEN) (strip (lower value))) in
  let slug := str_or slug (lit "file") in
  let suffix := prefix 8 hex in
  let max_base := Nat.max 1 (40 - length suffix - 1) in
  let slug := str_or (prefix max_base slug) (lit "file") in
  let resource := slug ++ [HYPHEN] ++ suffix in
  resource.

(* ================================================================== *)
(** ** app.py: parsing of suggested questions                          *)
(* ================================================================== *)

Definition BULLET_CHARS : str := [SPACE; HYPHEN; chr 42; chr 10; chr 13; chr 9].

(** The two list comprehensions that end suggest_questions. *)
Definition parse_suggestions (text : str) (count : Z) : list str :=
  let questions :=
    map (strip_chars BULLET_CHARS)
        (filter (fun q => truthy (strip q)) (split_on NEWLINE text)) in
  let questions :=
    slice_to count (filter (fun q => 10 <? length q) questions) in
  questions.

(* ================================================================== *)
(** ** Exceptions, results and the state-and-exception monad           *)
(* ================================================================== *)

Inductive exn : Type :=
| RuntimeError (msg : str)
| ValueError (msg : str)
| TypeError
| IndexError
| RemoteError (detail : str)
| OSError (kind : str).

(** What running a function gives: a value, a raised exception, or
    [Diverge] when a polling loop was still running after [fuel] turns. *)
Inductive result (A : Type) : Type :=
| Ok (a : A)
| Raise (e : exn)
| Diverge.

Arguments Ok {A} a.
Arguments Raise {A} e.
Arguments Diverge {A}.

(** A computation over a world [W]: the world is returned in every case,
    so what was done before an exception stays done. *)
Definition M (W A : Type) : Type := W -> result A * W.

Definition ret {W A : Type} (a : A) : M W A := fun w => (Ok a, w).

Definition raise {W A : Type} (e : exn) : M W A := fun w => (Raise e, w).

Definition bind {W A B : Type} (c : M W A) (k : A -> M W B) : M W B :=
  fun w =>
    match c w with
    | (Ok a, w') => k a w'
    | (Raise e, w') => (Raise e, w')
    | (Diverge, w') => (Diverge, w')
    end.

Declare Scope monad_scope.
Delimit Scope monad_scope with monad.
Notation "x <- c ;; k" := (bind c (fun x => k))
  (at level 61, c at next level, right associativity) : monad_scope.
Notation "c ;; k" := (bind c (fun _ => k))
  (at level 61, right associativity) : monad_scope.

(* ================================================================== *)
(** ** The remote service and the world                                *)
(* ================================================================== *)

Record FileSearchStore : Type := {
  store_name_of : str;
  store_display_name : str
}.

Record UploadedFile : Type := { file_name_of : str }.

(** A long-running operation: its handle, its completion flag and the
    failure status the service may attach to it. *)
Record Operation : Type := {
  op_name : str;
  op_done : bool;
  op_error : option str
}.

Record CustomMetadata : Type := { key : str; string_value : str }.

(** A path inside a folder: [Path(folder) / name]. *)
Record Path : Type := { path_parent : str; path_name : str }.

Record FileSearch : Type := {
  file_search_store_names : list str;
  metadata_filter : option str
}.

Record GenerateRequest : Type := {
  model : str;
  contents : str;
  tools : list FileSearch
}.

Record RetrievedContext : Type := {
  ctx_title : option str;
  ctx_text : option str
}.

Record GroundingChunk : Type := { retrieved_context : option RetrievedContext }.

Record GroundingMetadata : Type := {
  grounding_chunks : option (list GroundingChunk)
}.

Record Candidate : Type := { grounding_metadata : option GroundingMetadata }.

Record Response : Type := {
  response_text : option str;
  candidates : list Candidate
}.

Record Citation : Type := { title : str; text : str }.

(** The lines the program prints. *)
Inductive Message : Type :=
| MsgStoreUsing (name : str)
| MsgStoreCreated (name : str)
| MsgStoreHint (name : str)
| MsgNoPdfs (folder : str)
| MsgUploading (idx : nat) (name : str)
| MsgIndexed (idx : nat) (name : str).

(** What the program does to the outside, in order. *)
Inductive Event : Type :=
| EStoreGet (name : str)
| EStoreCreate (display_name : str)
| EUpload (file : Path) (name : str) (display_name : str)
| EImport (file_search_store_name : str) (file_name : str)
          (custom_metadata : list CustomMetadata)
| EOperationGet (op : Operation)
| EGenerate (req : GenerateRequest)
| ESleep (seconds : nat)
| EPrint (line : Message).

(** The answer of the remote service to one call. *)
Inductive reply (A : Type) : Type :=
| Reply (a : A)
| Error (e : exn).

Arguments Reply {A} a.
Arguments Error {A} e.

(** The remote service (the google.genai client): a transition system
    over a state [S] of its own. *)
Record Service (S : Type) : Type := {
  stores_get : str -> S -> reply FileSearchStore * S;
  stores_create : str -> S -> reply FileSearchStore * S;
  files_upload : Path -> str -> str -> S -> reply UploadedFile * S;
  stores_import_file :
    str -> str -> list CustomMetadata -> S -> reply Operation * S;
  operations_get : Operation -> S -> reply Operation * S;
  generate_content : GenerateRequest -> S -> reply Response * S
}.

Arguments stores_get {S}.
Arguments stores_create {S}.
Arguments files_upload {S}.
Arguments stores_import_file {S}.
Arguments operations_get {S}.
Arguments generate_content {S}.

Record World (S : Type) : Type := {
  remote : S;                      (* the state of the remote service *)
  trace : list Event;              (* what was done so far, oldest first *)
  env_api_key : option str;        (* os.getenv("GEMINI_API_KEY") *)
  uuid_hex : nat -> str;           (* the n-th uuid.uuid4().hex drawn *)
  uuid_drawn : nat;
  listing : str -> list str;       (* names directly inside a folder *)
  tmp_dir : str                    (* the next temporary directory *)
}.

Arguments remote {S}.
Arguments trace {S}.
Arguments env_api_key {S}.
Arguments uuid_hex {S}.
Arguments uuid_drawn {S}.
Arguments listing {S}.
Arguments tmp_dir {S}.

Definition with_remote {S} (w : World S) (s : S) (ev : Event) : World S :=
  {| remote := s; trace := trace w ++ [ev]; env_api_key := env_api_key w;
     uuid_hex := uuid_hex w; uuid_drawn := uuid_drawn w;
     listing := listing w; tmp_dir := tmp_dir w |}.

Definition with_event {S} (w : World S) (ev : Event) : World S :=
  with_remote w (remote w) ev.

Definition with_uuid_drawn {S} (w : World S) (n : nat) : World S :=
  {| remote := remote w; trace := trace w; env_api_key := env_api_key w;
     uuid_hex := uuid_hex w; uuid_drawn := n;
     listing := listing w; tmp_dir := tmp_dir w |}.

Definition with_listing {S} (w : World S) (l : str -> list str) : World S :=
  {| remote := remote w; trace := trace w; env_api_key := env_api_key w;
     uuid_hex := uuid_hex w; uuid_drawn := uuid_drawn w;
     listing := l; tmp_dir := tmp_dir w |}.

(** One call of the remote service: logged, then answered. *)
Definition call {S A} (ev : Event) (f : S -> reply A * S) : M (World S) A :=
  fun w =>
    match f (remote w) with
    | (Reply a, s') => (Ok a, with_remote w s' ev)
    | (Error e, s') => (Raise e, with_remote w s' ev)
    end.

Definition emit {S} (ev : Event) : M (World S) unit :=
  fun w => (Ok tt, with_event w ev).

Definition print {S} (m : Message) : M (World S) unit := emit (EPrint m).

(** [time.sleep(seconds)]. *)
Definition sleep {S} (seconds : nat) : M (World S) unit :=
  emit (ESleep seconds).

(** A computation of the program. *)
Definition Run (S : Type) : Type -> Type := M (World S).

(* ================================================================== *)
(** ** pathlib: what the orchestrator uses of it                       *)
(* ================================================================== *)

(** [PurePath.stem]: the name up to its last dot, when that dot is neither
    the first nor the last character. *)
Definition stem (name : str) : str :=
  let i := rfind (chr 46) name in
  if ((0 <? i)%Z && (i <? Z.of_nat (length name) - 1)%Z)%bool
  then firstn (Z.to_nat i) name
  else name.

(** [list(Path(folder).glob("*.pdf"))]: the entries directly inside
    [folder] whose name ends in [.pdf] (the match is case-sensitive, as on
    POSIX), in the order the system lists them. *)
Definition glob_pdf {S} (folder : str) (w : World S) : list Path :=
  map (fun n => {| path_parent := folder; path_name := n |})
      (filter (endswith (lit ".pdf")) (listing w folder)).

(* ================================================================== *)
(** ** ingest_pdfs.py, query.py and app.py                             *)
(* ================================================================== *)

(** An uploaded file of the presentation layer: only its name matters. *)
Record Upload : Type := { upload_name : str }.

(** ** The file system under the temporary folder

    The folders hold exact names (a POSIX file system).  What the program
    and the folder do not settle is asked of the system: whether it
    refuses a write (no space, no permission, a name it does not take),
    what becomes of a write to a path that leaves the folder, and where a
    new entry stands when the folder is listed. *)

(** The answer of the system to a write outside the folder. *)
Inductive Written : Type :=
| Refused (e : exn)
| Stored (folder entry : str).

Record FileSystem : Type := {
  (* the folders, the folder, the entry: the exception, if it refuses *)
  fs_refuses : (str -> list str) -> str -> str -> option exn;
  (* the folders, the folder, the name as given *)
  fs_outside : (str -> list str) -> str -> str -> Written;
  (* the folder, its listing, the new entry: its place in the listing *)
  fs_slot : str -> list str -> str -> nat;
  (* two different names that the system takes for one entry (names that
     differ by case, on a system that ignores case) *)
  fs_same : str -> str -> bool
}.

Definition SLASH : ascii := chr 47.
Definition DOT : ascii := chr 46.
Definition DOTDOT : str := [DOT; DOT].

(** The parts of a relative path as pathlib keeps them: empty parts and
    single dots are dropped, double dots stay. *)
Definition path_parts (name : str) : list str :=
  filter (fun part => negb (str_eqb part [] || str_eqb part [DOT]))
         (split_on SLASH name).

Definition is_absolute (name : str) : bool :=
  match name with
  | c :: _ => Ascii.eqb c SLASH
  | [] => false
  end.

(** Where [Path(folder) / name] points, seen from [folder]. *)
Inductive Dest : Type :=
| DestEntry (entry : str)    (* the entry of that name, directly inside *)
| DestFolder                 (* the folder itself, or a folder above it *)
| DestBelow (first : str)    (* a path through the entry [first] *)
| DestOutside.               (* a path that leaves the folder *)

Definition dest_of (name : str) : Dest :=
  if is_absolute name then DestOutside
  else
    match path_parts name with
    | [] => DestFolder
    | first :: rest =>
        if str_eqb first DOTDOT then
          if forallb (fun part => str_eqb part DOTDOT) rest
          then DestFolder else DestOutside
        else
          match rest with
          | [] => DestEntry first
          | _ :: _ => DestBelow first
          end
    end.

Definition insert_at {A : Type} (k : nat) (x : A) (l : list A) : list A :=
  firstn k l ++ x :: skipn k l.

(** Whether [entry] is there among the names [names] of a folder. *)
Definition entry_exists (os : FileSystem) (entry : str) (names : list str)
  : bool :=
  existsb (fun n => str_eqb entry n || fs_same os entry n) names.

(** The folders after [entry] was written in [folder]: a new entry takes
    the place the system gives it, an entry that is there keeps its name
    and its place. *)
Definition store_entry (os : FileSystem) (folder entry : str)
    (l : str -> list str) : str -> list str :=
  fun d =>
    if str_eqb d folder then
      if entry_exists os entry (l d) then l d
      else insert_at (fs_slot os folder (l d) entry) entry (l d)
    else l d.

Section Program.

Context {S : Type} (svc : Service S).

Local Open Scope monad_scope.

(** [get_client]: the client stands for [svc]; only the check of the
    credential is left. *)
Definition get_client : Run S unit :=
  fun w =>
    if negb (opt_truthy (env_api_key w))
    then (Raise (RuntimeError (lit "GEMINI_API_KEY env var is not set")), w)
    else (Ok tt, w).

(** [wait_for_operation]: one unit of [fuel] for each turn of the loop. *)
Fixpoint wait_for_operation (fuel : nat) (op : Operation) : Run S Operation :=
  if negb (op_done op) then
    match fuel with
    | O => fun w => (Diverge, w)
    | Datatypes.S fuel' =>
        sleep 5 ;;
        op' <- call (EOperationGet op) (operations_get svc op) ;;
        wait_for_operation fuel' op'
    end
  else ret op.

Definition get_or_create_store (store_name : option str) (display_name : str)
  : Run S FileSearchStore :=
  if opt_truthy store_name then
    let name := opt_or store_name [] in
    store <- call (EStoreGet name) (stores_get svc name) ;;
    print (MsgStoreUsing (store_name_of store)) ;;
    ret store
  else
    store <- call (EStoreCreate display_name) (stores_create svc display_name) ;;
    print (MsgStoreCreated (store_name_of store)) ;;
    ret store.

(** [file_resource_name]: draws the next [uuid.uuid4()]. *)
Definition file_resource_name (value : str) : Run S str :=
  fun w =>
    (Ok (file_resource_name_with (uuid_hex w (uuid_drawn w)) value),
     with_uuid_drawn w (Datatypes.S (uuid_drawn w))).

Definition book_metadata (book_title : str) : list CustomMetadata :=
  [ {| key := lit "source_type"; string_value := lit "book" |};
    {| key := lit "book_title"; string_value := book_title |} ].

(** The body of the [for] loop of [ingest_pdfs]. *)
Definition ingest_pdfs_body (fuel : nat) (store : FileSearchStore)
    (idx : nat) (pdf_path : Path) : Run S unit :=
  let book_title := stem (path_name pdf_path) in
  print (MsgUploading idx (path_name pdf_path)) ;;
  name <- file_resource_name book_title ;;
  uploaded_file <-
    call (EUpload pdf_path name book_title)
         (files_upload svc pdf_path name book_title) ;;
  let metadata := book_metadata book_title in
  op <-
    call (EImport (store_name_of store) (file_name_of uploaded_file) metadata)
         (stores_import_file svc (store_name_of store)
            (file_name_of uploaded_file) metadata) ;;
  wait_for_operation fuel op ;;
  print (MsgIndexed idx (path_name pdf_path)).

(** [for idx, pdf_path in enumerate(pdf_files, start=idx)]. *)
Fixpoint ingest_pdfs_loop (fuel : nat) (store : FileSearchStore)
    (idx : nat) (pdf_files : list Path) : Run S unit :=
  match pdf_files with
  | [] => ret tt
  | pdf_path :: rest =>
      ingest_pdfs_body fuel store idx pdf_path ;;
      ingest_pdfs_loop fuel store (Datatypes.S idx) rest
  end.

(** [ingest_pdfs]: [None] is the bare [return] of the source. *)
Definition ingest_pdfs (fuel : nat) (folder : str) (store_name : option str)
    (display_name : str) : Run S (option str) :=
  get_client ;;
  store <- get_or_create_store store_name display_name ;;
  print (MsgStoreHint (store_name_of store)) ;;
  pdf_files <- (fun w => (Ok (glob_pdf folder w), w)) ;;
  if negb (match pdf_files with [] => false | _ :: _ => true end) then
    print (MsgNoPdfs folder) ;;
    ret None
  else
    ingest_pdfs_loop fuel store 1 pdf_files ;;
    ret (Some (store_name_of store)).

(** [dest = Path(folder) / name; dest.write_bytes(...)]: a name with a
    null byte is refused by [open]; the folder itself and a path through
    an entry of the folder (the folder holds files only) cannot be opened
    for writing; an entry of the folder is created, or written over when
    it is there, unless the system refuses; and what becomes of a path
    that leaves the folder is the system's answer. *)
Definition write_file (os : FileSystem) (folder name : str) : Run S unit :=
  fun w =>
    if existsb (Ascii.eqb (chr 0)) name then
      (Raise (ValueError (lit "embedded null byte")), w)
    else
      match dest_of name with
      | DestEntry entry =>
          match fs_refuses os (listing w) folder entry with
          | Some e => (Raise e, w)
          | None =>
              (Ok tt, with_listing w (store_entry os folder entry (listing w)))
          end
      | DestFolder => (Raise (OSError (lit "IsADirectoryError")), w)
      | DestBelow first =>
          if entry_exists os first (listing w folder)
          then (Raise (OSError (lit "NotADirectoryError")), w)
          else (Raise (OSError (lit "FileNotFoundError")), w)
      | DestOutside =>
          match fs_outside os (listing w) folder name with
          | Refused e => (Raise e, w)
          | Stored dir entry =>
              (Ok tt, with_listing w (store_entry os dir entry (listing w)))
          end
      end.

(** [for file in files: ... dest.write_bytes(file.getbuffer())]. *)
Fixpoint write_uploads (os : FileSystem) (folder : str)
    (files : list Upload) : Run S unit :=
  match files with
  | [] => ret tt
  | file :: rest =>
      write_file os folder (upload_name file) ;;
      write_uploads os folder rest
  end.

(** Entering [with tempfile.TemporaryDirectory()] gives a new, empty
    folder; leaving it removes the folder, whether the block returned or
    raised. *)
Definition remove_dir (folder : str) (w : World S) : World S :=
  with_listing w (fun d => if str_eqb d folder then [] else listing w d).

(** [ingest_uploaded_pdfs] of app.py. *)
Definition ingest_uploaded_pdfs (os : FileSystem) (fuel : nat)
    (files : list Upload) (store_name : option str) (display_name : str)
  : Run S (Z * option str) :=
  if negb (match files with [] => false | _ :: _ => true end) then
    ret (0%Z, store_name)
  else
    fun w =>
      let tmpdir := tmp_dir w in
      let w0 := remove_dir tmpdir w in
      let block :=
        write_uploads os tmpdir files ;;
        ingest_pdfs fuel tmpdir store_name display_name in
      match block w0 with
      | (Ok resulting_store, w') =>
          (Ok (Z.of_nat (length files), resulting_store), remove_dir tmpdir w')
      | (Raise e, w') => (Raise e, remove_dir tmpdir w')
      | (Diverge, w') => (Diverge, w')
      end.

Definition GEMINI_MODEL : str := lit "gemini-2.5-flash".

(** The citation of one grounding chunk, [None] when the chunk is skipped. *)
Definition citation_of (chunk : GroundingChunk) : option Citation :=
  match retrieved_context chunk with
  | None => None
  | Some ctx =>
      Some {| title := opt_or (ctx_title ctx) (lit "Unknown Source");
              text := app_snippet (ctx_text ctx) |}
  end.

Fixpoint citations_of (chunks : list GroundingChunk) : list Citation :=
  match chunks with
  | [] => []
  | chunk :: rest =>
      match citation_of chunk with
      | None => citations_of rest
      | Some c => c :: citations_of rest
      end
  end.

Definition file_search_request (contents : str) (store_name : str)
    (source_type : option str) : GenerateRequest :=
  let metadata_filter := app_metadata_filter source_type in
  let file_search :=
    {| file_search_store_names := [store_name];
       metadata_filter := metadata_filter |} in
  {| model := GEMINI_MODEL; contents := contents; tools := [file_search] |}.

(** [ask_question] of app.py. *)
Definition ask_question (question : str) (store_name : str)
    (source_type : option str) : Run S (str * list Citation) :=
  get_client ;;
  let req := file_search_request question store_name source_type in
  response <- call (EGenerate req) (generate_content svc req) ;;
  let answer := opt_or (response_text response) [] in
  match candidates response with
  | [] => raise IndexError
  | candidate :: _ =>
      match grounding_metadata candidate with
      | None => ret (answer, [])
      | Some gm =>
          match grounding_chunks gm with
          | None => raise TypeError
          | Some chunks => ret (answer, citations_of chunks)
          end
      end
  end.

(** [str(count)]. *)
Definition str_of_int (n : Z) : str :=
  lit (DecimalString.NilZero.string_of_int (Z.to_int n)).

Definition suggest_prompt (count : Z) : str :=
  lit "You are a helpful tutor. Propose "
  ++ str_of_int count
  ++ lit " specific, thought-provoking questions someone should explore "
  ++ lit "after studying the uploaded PDFs. Each question must be grounded in the "
  ++ lit "documents and include enough context to understand what to look for.".

(** [suggest_questions] of app.py. *)
Definition suggest_questions (store_name : str) (source_type : option str)
    (count : Z) : Run S (list str) :=
  if negb (truthy store_name) then
    raise (ValueError (lit "Store name is required to fetch suggestions."))
  else
    get_client ;;
    let req := file_search_request (suggest_prompt count) store_name source_type in
    response <- call (EGenerate req) (generate_content svc req) ;;
    let text := opt_or (response_text response) [] in
    ret (parse_suggestions text count).

End Program.


(* ================================================================== *)
(** ** A small remote service to run the program against               *)
(* ================================================================== *)

Module Fake.

(** A service that keeps its stores, uploads and imports in lists, refuses
    the upload of one display name, needs [polls] status refreshes before
    an import is done, and ends every import with the status
    [import_error]. *)
Record State : Type := {
  stores : list str;
  uploaded : list str;
  imported : list (str * str);
  polls : nat;
  pending : nat;
  reject_upload : str;
  import_error : option str;
  answer : Response
}.

Definition set_stores (s : State) (l : list str) : State :=
  {| stores := l; uploaded := uploaded s; imported := imported s;
     polls := polls s; pending := pending s;
     reject_upload := reject_upload s; import_error := import_error s;
     answer := answer s |}.

Definition set_uploaded (s : State) (l : list str) : State :=
  {| stores := stores s; uploaded := l; imported := imported s;
     polls := polls s; pending := pending s;
     reject_upload := reject_upload s; import_error := import_error s;
     answer := answer s |}.

Definition set_imported (s : State) (l : list (str * str)) (n : nat) : State :=
  {| stores := stores s; uploaded := uploaded s; imported := l;
     polls := polls s; pending := n;
     reject_upload := reject_upload s; import_error := import_error s;
     answer := answer s |}.

Definition status (s : State) (name : str) (left : nat) : Operation :=
  {| op_name := name;
     op_done := Nat.eqb left 0;
     op_error := if Nat.eqb left 0 then import_error s else None |}.

Definition service : Service State := {|
  stores_get := fun name s =>
    if existsb (str_eqb name) (stores s)
    then (Reply {| store_name_of := name; store_display_name := [] |}, s)
    else (Error (RemoteError (lit "NOT_FOUND")), s);
  stores_create := fun display_name s =>
    let name := lit "fileSearchStores/" ++ display_name in
    (Reply {| store_name_of := name; store_display_name := display_name |},
     set_stores s (stores s ++ [name]));
  files_upload := fun file name display_name s =>
    if str_eqb display_name (reject_upload s)
    then (Error (RemoteError (lit "UPLOAD_FAILED")), s)
    else (Reply {| file_name_of := lit "files/" ++ name |},
          set_uploaded s (uploaded s ++ [lit "files/" ++ name]));
  stores_import_file := fun store file metadata s =>
    (Reply (status s (lit "operations/" ++ file) (polls s)),
     set_imported s (imported s ++ [(store, file)]) (polls s));
  operations_get := fun op s =>
    (Reply (status s (op_name op) (Nat.pred (pending s))),
     set_imported s (imported s) (Nat.pred (pending s)));
  generate_content := fun req s => (Reply (answer s), s)
|}.

Definition no_answer : Response :=
  {| response_text := None; candidates := [ {| grounding_metadata := None |} ] |}.

Definition state0 (polls : nat) (reject : str) (err : option str) : State :=
  {| stores := []; uploaded := []; imported := [];
     polls := polls; pending := 0;
     reject_upload := reject; import_error := err;
     answer := no_answer |}.

Definition HEX : str := lit "0123456789abcdef0123456789abcdef".

(** A world with the credential set, a folder [books] of two PDFs and a
    text file, and an empty folder [empty]. *)
Definition world (s : State) : World State :=
  {| remote := s; trace := [];
     env_api_key := Some (lit "secret");
     uuid_hex := fun _ => HEX; uuid_drawn := 0;
     listing := fun d =>
       if str_eqb d (lit "books")
       then [lit "jung.pdf"; lit "notes.txt"; lit "rossi.pdf"]
       else [];
     tmp_dir := lit "/tmp/tmpkb" |}.

End Fake.

(* ================================================================== *)
(** ** Vocabulary of the specification                                 *)
(* ================================================================== *)

(** The constrained character set of a resource name: [a-z], [0-9], [-]. *)
Definition name_char (c : ascii) : bool :=
  within 97 122 c || within 48 57 c || Ascii.eqb c HYPHEN.

Definition hex_digit (c : ascii) : bool :=
  within 48 57 c || within 97 102 c.

(** What [uuid.uuid4().hex] returns: 32 lowercase hexadecimal digits. *)
Definition is_uuid_hex (h : str) : Prop :=
  length h = 32 /\ forallb hex_digit h = true.

(** A title of ASCII characters only. *)
Definition is_ascii (s : str) : bool := forallb (fun c => ord c <? 128) s.

(** The title as the namer normalises it, before the placeholder. *)
Definition normalized_title (value : str) : str :=
  strip_chars [HYPHEN]
    (map (fun c => if isalnum c then c else HYPHEN) (strip (lower value))).

Definition first_char (s : str) : option ascii := hd_error s.
Definition last_char (s : str) : option ascii := hd_error (rev s).

(** [xs] is [ys] with some elements left out, the order kept. *)
Inductive Subseq {A : Type} : list A -> list A -> Prop :=
| Subseq_nil : Subseq [] []
| Subseq_skip x xs ys : Subseq xs ys -> Subseq xs (x :: ys)
| Subseq_keep x xs ys : Subseq xs ys -> Subseq (x :: xs) (x :: ys).

(** [sep.join(parts)] for a one-character separator. *)
Fixpoint join_on (sep : ascii) (parts : list str) : str :=
  match parts with
  | [] => []
  | [p] => p
  | p :: rest => p ++ sep :: join_on sep rest
  end.

(** The events of [w'] that were not yet in [w]. *)
Definition new_events {S} (w w' : World S) : list Event :=
  skipn (length (trace w)) (trace w').

(** The import submissions of a trace: the store each names and the
    metadata each carries. *)
Definition imports_of (tr : list Event) : list (str * list CustomMetadata) :=
  flat_map (fun e =>
              match e with
              | EImport store _ metadata => [(store, metadata)]
              | _ => []
              end) tr.

(** The calls of a trace that fetch or create a store. *)
Definition store_resolutions (tr : list Event) : nat :=
  length (filter (fun e =>
                    match e with
                    | EStoreGet _ | EStoreCreate _ => true
                    | _ => false
                    end) tr).

(** The generation requests of a trace. *)
Definition requests_of (tr : list Event) : list GenerateRequest :=
  flat_map (fun e => match e with EGenerate req => [req] | _ => [] end) tr.

(** The events of the polling loop. *)
Definition poll_event (e : Event) : bool :=
  match e with
  | ESleep _ | EOperationGet _ => true
  | _ => false
  end.

(** [w'] is [w] after the events [evs]: the trace grew by [evs], and the
    folders and the environment are as they were. *)
Definition extends {S} (w w' : World S) (evs : list Event) : Prop :=
  trace w' = trace w ++ evs
  /\ listing w' = listing w
  /\ env_api_key w' = env_api_key w.

(** How many refreshes the service needs before it reports [op] done
    (or fails the refresh): at most [n], from the state [s]. *)
Fixpoint settles_within {S} (svc : Service S) (n : nat) (op : Operation)
    (s : S) : Prop :=
  op_done op = true
  \/ match n with
     | O => False
     | Datatypes.S n' =>
         match operations_get svc op s with
         | (Reply op', s') => settles_within svc n' op' s'
         | (Error _, _) => True
         end
     end.

(** The three ways one file of a batch can fail with the exception [e],
    from the world [w] to the world [w'] the failing call leaves: the
    upload is refused, the import submission is refused, or the wait raises
    (a status refresh is refused). *)
Inductive file_failure {S} (svc : Service S) (fuel : nat)
    (store : FileSearchStore) (idx : nat) (p : Path) (w : World S)
    (e : exn) : World S -> Prop :=
| upload_error s2 :
    let book_title := stem (path_name p) in
    let name := file_resource_name_with (uuid_hex w (uuid_drawn w)) book_title in
    let w1 := with_uuid_drawn
                (with_event w (EPrint (MsgUploading idx (path_name p))))
                (Datatypes.S (uuid_drawn w)) in
    files_upload svc p name book_title (remote w) = (Error e, s2) ->
    file_failure svc fuel store idx p w e
      (with_remote w1 s2 (EUpload p name book_title))
| import_error uploaded_file s2 s3 :
    let book_title := stem (path_name p) in
    let name := file_resource_name_with (uuid_hex w (uuid_drawn w)) book_title in
    let w1 := with_uuid_drawn
                (with_event w (EPrint (MsgUploading idx (path_name p))))
                (Datatypes.S (uuid_drawn w)) in
    let w2 := with_remote w1 s2 (EUpload p name book_title) in
    files_upload svc p name book_title (remote w) = (Reply uploaded_file, s2) ->
    stores_import_file svc (store_name_of store) (file_name_of uploaded_file)
      (book_metadata book_title) s2 = (Error e, s3) ->
    file_failure svc fuel store idx p w e
      (with_remote w2 s3
         (EImport (store_name_of store) (file_name_of uploaded_file)
            (book_metadata book_title)))
| wait_error uploaded_file s2 op s3 w4 :
    let book_title := stem (path_name p) in
    let name := file_resource_name_with (uuid_hex w (uuid_drawn w)) book_title in
    let w1 := with_uuid_drawn
                (with_event w (EPrint (MsgUploading idx (path_name p))))
                (Datatypes.S (uuid_drawn w)) in
    let w2 := with_remote w1 s2 (EUpload p name book_title) in
    let w3 := with_remote w2 s3
                (EImport (store_name_of store) (file_name_of uploaded_file)
                   (book_metadata book_title)) in
    files_upload svc p name book_title (remote w) = (Reply uploaded_file, s2) ->
    stores_import_file svc (store_name_of store) (file_name_of uploaded_file)
      (book_metadata book_title) s2 = (Reply op, s3) ->
    wait_for_operation svc fuel op w3 = (Raise e, w4) ->
    file_failure svc fuel store idx p w e w4.

(* ================================================================== *)
(** ** Sample inputs                                                   *)
(* ================================================================== *)

(** A source of 50 characters, one of them a newline. *)
Definition two_line_source : str :=
  lit "first line" ++ [NEWLINE] ++ repeat (chr 97) 39.

(** A response of five lines: two bulleted questions, a short line, a
    blank line and a numbered question. *)
Definition sample_response : str :=
  lit "- What does the author say about dreams?" ++ [NEWLINE]
  ++ lit "* How are symbols formed?" ++ [NEWLINE]
  ++ lit " - short" ++ [NEWLINE]
  ++ lit "   " ++ [NEWLINE]
  ++ lit "3. Which practices are recommended?".

(** The store that the sample service creates for the display name [X]. *)
Definition store_X : FileSearchStore :=
  {| store_name_of := lit "fileSearchStores/X"; store_display_name := lit "X" |}.

(** A healthy service whose imports need one refresh. *)
Definition healthy : World Fake.State := Fake.world (Fake.state0 1 [] None).

(** A service that refuses the upload of the second book. *)
Definition refusing : World Fake.State :=
  Fake.world (Fake.state0 1 (lit "rossi") None).

(** A service whose imports are done at once, with a failure status. *)
Definition failing : World Fake.State :=
  Fake.world (Fake.state0 0 [] (Some (lit "FAILED"))).

Definition jung_pdf : Path :=
  {| path_parent := lit "books"; path_name := lit "jung.pdf" |}.

Definition rossi_pdf : Path :=
  {| path_parent := lit "books"; path_name := lit "rossi.pdf" |}.

(** The operation the failing service answers to the import of the first
    book. *)
Definition failed_operation : Operation :=
  {| op_name := lit "operations/files/jung-01234567";
     op_done := true;
     op_error := Some (lit "FAILED") |}.

(** A response whose second chunk has no retrieved context. *)
Definition sample_answer : Response :=
  {| response_text := Some (lit "An answer.");
     candidates :=
       [ {| grounding_metadata :=
              Some {| grounding_chunks :=
                        Some [ {| retrieved_context :=
                                    Some {| ctx_title := None;
                                            ctx_text := Some two_line_source |} |};
                               {| retrieved_context := None |} ] |} |} ] |}.

(** A service that answers every question with [sample_answer]. *)
Definition answering : World Fake.State :=
  Fake.world
    {| Fake.stores := []; Fake.uploaded := []; Fake.imported := [];
       Fake.polls := 0; Fake.pending := 0;
       Fake.reject_upload := []; Fake.import_error := None;
       Fake.answer := sample_answer |}.

(* ================================================================== *)
(** ** app.py: the history of questions                                *)
(* ================================================================== *)

(** An entry of [st.session_state["history"]]. *)
Record HistoryEntry : Type := { h_question : str; h_answer : str }.

Definition history_entry (question answer : str) : HistoryEntry :=
  {| h_question := question;
     h_answer := prefix 300 answer
                 ++ (if 300 <? length answer then lit "..." else []) |}.

(** [push_history]: the new value of [st.session_state["history"]], given
    the old one. *)
Definition push_history (question answer : str)
    (history : list HistoryEntry) : list HistoryEntry :=
  let entry := history_entry question answer in
  [entry] ++ firstn 4 history.

(** One [push_history] for each question and answer, oldest first. *)
Definition push_all (asked : list (str * str))
    (history : list HistoryEntry) : list HistoryEntry :=
  fold_left (fun h qa => push_history (fst qa) (snd qa) h) asked history.

(* ================================================================== *)
(** ** query.py: main, after the arguments are parsed                  *)
(* ================================================================== *)

(** What [main] prints, block by block. *)
Inductive QueryLine : Type :=
| LineAnswer (text : option str)
| LineNoCitations
| LineCitationsHeader
| LineCitation (i : nat) (title snippet : str).

(** [for i, chunk in enumerate(chunks, start=i)]. *)
Fixpoint print_citations (i : nat) (chunks : list GroundingChunk)
  : list QueryLine :=
  match chunks with
  | [] => []
  | chunk :: rest =>
      match retrieved_context chunk with
      | None => print_citations (Datatypes.S i) rest
      | Some ctx =>
          LineCitation i (opt_or (ctx_title ctx) (lit "Unknown Source"))
            (query_snippet (ctx_text ctx))
          :: print_citations (Datatypes.S i) rest
      end
  end.

(** [main] of query.py on the parsed arguments: the outcome, what was
    printed until then, and the world. *)
Definition query_main {S} (svc : Service S) (question store_name : str)
    (source_type : option str) (w : World S)
  : result unit * list QueryLine * World S :=
  match get_client w with
  | (Ok _, w0) =>
      let metadata_filter := build_metadata_filter source_type in
      let file_search :=
        {| file_search_store_names := [store_name];
           metadata_filter := metadata_filter |} in
      let req :=
        {| model := lit "gemini-2.5-flash"; contents := question;
           tools := [file_search] |} in
      match call (EGenerate req) (generate_content svc req) w0 with
      | (Ok response, w1) =>
          let printed := [LineAnswer (response_text response)] in
          match candidates response with
          | [] => (Raise IndexError, printed, w1)
          | candidate :: _ =>
              let chunks :=
                match grounding_metadata candidate with
                | Some gm => grounding_chunks gm
                | None => Some []
                end in
              match chunks with
              | None | Some [] => (Ok tt, printed ++ [LineNoCitations], w1)
              | Some chunks =>
                  (Ok tt,
                   printed ++ [LineCitationsHeader] ++ print_citations 1 chunks,
                   w1)
              end
          end
      | (Raise e, w1) => (Raise e, [], w1)
      | (Diverge, w1) => (Diverge, [], w1)
      end
  | (Raise e, w0) => (Raise e, [], w0)
  | (Diverge, w0) => (Diverge, [], w0)
  end.

(* ================================================================== *)
(** ** More vocabulary for traces                                      *)
(* ================================================================== *)

(** The uploads of a trace: the file, the resource name and the display
    name of each. *)
Definition uploads_of (tr : list Event) : list (Path * str * str) :=
  flat_map (fun e =>
              match e with
              | EUpload file name display_name => [(file, name, display_name)]
              | _ => []
              end) tr.

(** The calls of a trace that fetch or create a store, as events. *)
Definition store_calls_of (tr : list Event) : list Event :=
  filter (fun e =>
            match e with
            | EStoreGet _ | EStoreCreate _ => true
            | _ => false
            end) tr.

(** The uploads a batch makes for [files], the first with the [n]-th
    value of the random source. *)
Fixpoint expected_uploads (hex : nat -> str) (n : nat) (files : list Path)
  : list (Path * str * str) :=
  match files with
  | [] => []
  | p :: rest =>
      (p, file_resource_name_with (hex n) (stem (path_name p)),
       stem (path_name p))
      :: expected_uploads hex (Datatypes.S n) rest
  end.

(** The title and the snippet of a printed citation. *)
Definition cited (l : QueryLine) : list (str * str) :=
  match l with
  | LineCitation _ t s => [(t, s)]
  | _ => []
  end.

Definition has_context (chunk : GroundingChunk) : bool :=
  match retrieved_context chunk with Some _ => true | None => false end.

(** What [get_client] raises without the credential. *)
Definition NO_KEY : exn :=
  RuntimeError (lit "GEMINI_API_KEY env var is not set").

(* ================================================================== *)
(** ** More sample inputs                                              *)
(* ================================================================== *)

(** The healthy world without the credential. *)
Definition no_key : World Fake.State :=
  {| remote := remote healthy; trace := [];
     env_api_key := None;
     uuid_hex := uuid_hex healthy; uuid_drawn := 0;
     listing := listing healthy; tmp_dir := tmp_dir healthy |}.

(** A service whose answer has grounding metadata but no list of chunks. *)
Definition chunkless_answer : Response :=
  {| response_text := Some (lit "An answer.");
     candidates :=
       [ {| grounding_metadata := Some {| grounding_chunks := None |} |} ] |}.

Definition chunkless : World Fake.State :=
  Fake.world
    {| Fake.stores := []; Fake.uploaded := []; Fake.imported := [];
       Fake.polls := 0; Fake.pending := 0;
       Fake.reject_upload := []; Fake.import_error := None;
       Fake.answer := chunkless_answer |}.

(** The healthy world with a random source that gives a new value for the
    second draw. *)
Definition two_uuids : World Fake.State :=
  {| remote := remote healthy; trace := [];
     env_api_key := env_api_key healthy;
     uuid_hex := fun n =>
       if Nat.eqb n 0 then Fake.HEX
       else lit "fedcba9876543210fedcba9876543210";
     uuid_drawn := 0;
     listing := fun d =>
       if str_eqb d (lit "twins")
       then [lit "jung.pdf"; lit "Jung.pdf"]
       else [];
     tmp_dir := tmp_dir healthy |}.

(** The sample service with generation out of order. *)
Definition offline : Service Fake.State :=
  {| stores_get := stores_get Fake.service;
     stores_create := stores_create Fake.service;
     files_upload := files_upload Fake.service;
     stores_import_file := stores_import_file Fake.service;
     operations_get := operations_get Fake.service;
     generate_content := fun _ s =>
       (Error (RemoteError (lit "UNAVAILABLE")), s) |}.


(** A file system that refuses nothing, lists new entries first, tells
    names apart by case, and stores a name of the form [../entry] in
    [/tmp], where the temporary folders of the samples are. *)
Definition plain_os : FileSystem :=
  {| fs_refuses := fun _ _ _ => None;
     fs_outside := fun _ _ name =>
       match path_parts name with
       | [up; entry] =>
           if str_eqb up DOTDOT then Stored (lit "/tmp") entry
           else Refused (OSError (lit "PermissionError"))
       | _ => Refused (OSError (lit "PermissionError"))
       end;
     fs_slot := fun _ _ _ => 0;
     fs_same := fun _ _ => false |}.

(** Whether writing [name] can make an entry that [glob("*.pdf")] finds in
    the folder. *)
Definition may_list_pdf (name : str) : bool :=
  match dest_of name with
  | DestEntry entry => endswith (lit ".pdf") entry
  | DestOutside => true
  | DestFolder | DestBelow _ => false
  end.

(** Whether writing [name] stays inside the folder. *)
Definition stays_inside (name : str) : bool :=
  match dest_of name with
  | DestOutside => false
  | _ => true
  end.
(* ================================================================== *)
(** * Properties                                                        *)
(* ================================================================== *)

(** ** Strings *)

Section StringFacts.

Lemma replace_char_length (old new : ascii) (s : str) :
  length (replace_char old new s) = length s.
Proof. unfold replace_char. apply length_map. Qed.

Lemma replace_char_prefix (old new : ascii) (n : nat) (s : str) :
  replace_char old new (prefix n s) = prefix n (replace_char old new s).
Proof.
  unfold replace_char, prefix. revert n.
  induction s as [|c s IH]; intros [|n]; simpl; try reflexivity.
  now rewrite IH.
Qed.

Lemma replace_char_nth (old new d : ascii) (s : str) (i : nat) :
  i < length s ->
  nth i (replace_char old new s) d =
  if Ascii.eqb (nth i s d) old then new else nth i s d.
Proof.
  revert i. induction s as [|c s IH]; simpl; intros i Hi; [lia|].
  destruct i as [|i]; [reflexivity|]. apply IH. lia.
Qed.

(** A string without [old] is left as it is. *)
Lemma replace_char_absent (old new : ascii) (s : str) :
  existsb (fun c => Ascii.eqb c old) s = false ->
  replace_char old new s = s.
Proof.
  induction s as [|c s IH]; simpl; [reflexivity|].
  intros H. apply orb_false_iff in H as [Hc Hs].
  rewrite Hc, IH; auto.
Qed.

Lemma prefix_length_le (n : nat) (s : str) : length (prefix n s) <= n.
Proof. unfold prefix. rewrite length_firstn. lia. Qed.

Lemma prefix_all (n : nat) (s : str) : length s <= n -> prefix n s = s.
Proof. intros H. unfold prefix. now apply firstn_all2. Qed.

End StringFacts.

(** ** Citation snippets (query engine) *)

Section Snippets.

Lemma app_snippet_length (ctx_text : option str) :
  length (app_snippet ctx_text) =
  Nat.min SNIPPET_CAP (length (opt_or ctx_text []))
  + (if SNIPPET_CAP <? length (opt_or ctx_text []) then 3 else 0).
Proof.
  unfold app_snippet, prefix.
  rewrite length_app, length_firstn, !replace_char_length.
  destruct (SNIPPET_CAP <? _); reflexivity.
Qed.

(** C1, as stated, fails: a source of 500 characters gives a snippet of 403
    characters, above the cap of 400; and a source of 50 characters that
    holds a newline is not returned unmodified. *)
Lemma C1_snippet_counterexample :
  length (app_snippet (Some (repeat (chr 97) 500))) = 403
  /\ (403 <=? SNIPPET_CAP) = false
  /\ length two_line_source = 50
  /\ str_eqb (app_snippet (Some two_line_source)) two_line_source = false.
Proof. vm_compute. repeat split; reflexivity. Qed.

(** C1 (amended): the snippet is the source text with every newline
    replaced by one space, cut to its first 400 characters, followed by
    the ellipsis exactly when the source is longer than 400; its length is
    at most 403, the cap plus the three characters of the ellipsis.  A
    source of 500 characters gives 400 characters and the ellipsis; a
    source of 50 characters gives the source with its newlines replaced and
    no ellipsis, which is the source itself when it holds no newline. *)
Theorem C1_snippet_amended (ctx_text : option str) :
  let source := opt_or ctx_text [] in
  let spaced := replace_char NEWLINE SPACE source in
  let snippet := app_snippet ctx_text in
  length snippet <= SNIPPET_CAP + length ELLIPSIS
  /\ (forall i d, i < Nat.min SNIPPET_CAP (length source) ->
        nth i snippet d =
        if Ascii.eqb (nth i source d) NEWLINE then SPACE else nth i source d)
  /\ (length source <= SNIPPET_CAP -> snippet = spaced)
  /\ (SNIPPET_CAP < length source ->
        snippet = prefix SNIPPET_CAP spaced ++ ELLIPSIS
        /\ length snippet = SNIPPET_CAP + length ELLIPSIS)
  /\ (length source = 500 ->
        length snippet = 403
        /\ firstn 400 snippet = prefix 400 spaced
        /\ skipn 400 snippet = lit "...")
  /\ (length source = 50 ->
        snippet = spaced
        /\ (existsb (fun c => Ascii.eqb c NEWLINE) source = false ->
            snippet = source)).
Proof.
  intros source spaced snippet.
  assert (Hlen : length spaced = length source)
    by apply replace_char_length.
  assert (Hshort : length source <= SNIPPET_CAP -> snippet = spaced).
  { intros H. unfold snippet, app_snippet. fold source. fold spaced.
    rewrite Hlen.
    replace (SNIPPET_CAP <? length source) with false
      by (symmetry; apply Nat.ltb_ge; exact H).
    rewrite app_nil_r. apply prefix_all. lia. }
  assert (Hlong : SNIPPET_CAP < length source ->
                  snippet = prefix SNIPPET_CAP spaced ++ ELLIPSIS).
  { intros H. unfold snippet, app_snippet. fold source. fold spaced.
    rewrite Hlen.
    replace (SNIPPET_CAP <? length source) with true
      by (symmetry; apply Nat.ltb_lt; exact H).
    reflexivity. }
  assert (Hcut : SNIPPET_CAP < length source ->
                 length (prefix SNIPPET_CAP spaced) = SNIPPET_CAP).
  { intros H. unfold prefix. rewrite length_firstn. lia. }
  split; [|split; [|split; [|split; [|split]]]].
  - unfold snippet. rewrite app_snippet_length. fold source.
    change (length ELLIPSIS) with 3.
    destruct (SNIPPET_CAP <? length source); lia.
  - intros i d Hi.
    unfold snippet, app_snippet. fold source. fold spaced.
    rewrite app_nth1
      by (unfold prefix; rewrite length_firstn, Hlen; exact Hi).
    unfold prefix. rewrite nth_firstn.
    replace (i <? SNIPPET_CAP) with true by (symmetry; apply Nat.ltb_lt; lia).
    apply replace_char_nth. lia.
  - exact Hshort.
  - intros H. split; [now apply Hlong|].
    rewrite (Hlong H), length_app, (Hcut H). reflexivity.
  - intros H.
    assert (H' : SNIPPET_CAP < length source)
      by (rewrite H; unfold SNIPPET_CAP; lia).
    rewrite (Hlong H'). split; [|split].
    + rewrite length_app, (Hcut H'). reflexivity.
    + change 400 with (SNIPPET_CAP + 0) at 1.
      rewrite <- (Hcut H') at 1. rewrite firstn_app_2. simpl.
      now rewrite app_nil_r.
    + change 400 with SNIPPET_CAP at 1.
      rewrite <- (Hcut H') at 1. rewrite skipn_app, skipn_all, Nat.sub_diag.
      reflexivity.
  - intros H.
    assert (H' : length source <= SNIPPET_CAP)
      by (rewrite H; unfold SNIPPET_CAP; lia).
    split; [now apply Hshort|].
    intros Hnl. rewrite (Hshort H'). now apply replace_char_absent.
Qed.

(** C9: the snippet of app.py (newlines replaced, then cut to 400) and
    the snippet of query.py (cut to 400, then newlines replaced) are the
    same string for every source text; replacing newlines keeps the length,
    so both test the same condition for the ellipsis. *)
Theorem C9_snippets_agree (ctx_text : option str) :
  app_snippet ctx_text = query_snippet ctx_text
  /\ length (replace_char NEWLINE SPACE (opt_or ctx_text []))
     = length (opt_or ctx_text []).
Proof.
  split; [|apply replace_char_length].
  unfold app_snippet, query_snippet.
  rewrite replace_char_length, replace_char_prefix. reflexivity.
Qed.

End Snippets.

(** ** Stripping *)

Section Stripping.

Variable p : ascii -> bool.

Lemma lstrip_by_suffix (s : str) :
  exists a, s = a ++ lstrip_by p s /\ forallb p a = true.
Proof.
  induction s as [|c s [a [Ha Hp]]]; simpl.
  - exists []. now split.
  - destruct (p c) eqn:Hc.
    + exists (c :: a). simpl. rewrite Hc, Hp. split; [now f_equal|reflexivity].
    + exists []. now split.
Qed.

Lemma lstrip_by_head (s : str) (c : ascii) (t : str) :
  lstrip_by p s = c :: t -> p c = false.
Proof.
  induction s as [|x s IH]; simpl; [discriminate|].
  destruct (p x) eqn:Hx; [exact IH|].
  intros H. injection H as -> _. exact Hx.
Qed.

Lemma lstrip_by_keeps_last (s : str) (c : ascii) :
  p c = false -> lstrip_by p (s ++ [c]) = lstrip_by p s ++ [c].
Proof.
  intros Hc. induction s as [|x s IH]; simpl.
  - now rewrite Hc.
  - destruct (p x); [exact IH|reflexivity].
Qed.

Lemma rstrip_by_prefix (s : str) :
  exists b, s = rstrip_by p s ++ b /\ forallb p b = true.
Proof.
  unfold rstrip_by.
  destruct (lstrip_by_suffix (rev s)) as [a [Ha Hp]].
  exists (rev a). split.
  - rewrite <- (rev_involutive s) at 1. rewrite Ha at 1.
    now rewrite rev_app_distr.
  - rewrite forallb_forall in *. intros x Hx. apply Hp.
    now apply in_rev.
Qed.

Lemma rstrip_by_last (s : str) (c : ascii) :
  last_char (rstrip_by p s) = Some c -> p c = false.
Proof.
  unfold last_char, rstrip_by. rewrite rev_involutive.
  destruct (lstrip_by p (rev s)) as [|x t] eqn:E; simpl; [discriminate|].
  intros H. injection H as <-. eapply lstrip_by_head; eauto.
Qed.

Lemma rstrip_by_keeps_head (c : ascii) (t : str) :
  p c = false -> exists t', rstrip_by p (c :: t) = c :: t'.
Proof.
  intros Hc. unfold rstrip_by. simpl.
  rewrite lstrip_by_keeps_last by exact Hc.
  rewrite rev_app_distr. simpl. eauto.
Qed.

(** [strip_by p s] is [s] without a run of [p]-characters at each end,
    and neither begins nor ends with a [p]-character. *)
Lemma strip_by_spec (s : str) :
  (exists a b, s = a ++ strip_by p s ++ b
               /\ forallb p a = true /\ forallb p b = true)
  /\ (forall c, first_char (strip_by p s) = Some c -> p c = false)
  /\ (forall c, last_char (strip_by p s) = Some c -> p c = false).
Proof.
  unfold strip_by. split; [|split].
  - destruct (lstrip_by_suffix s) as [a [Ha Hpa]].
    destruct (rstrip_by_prefix (lstrip_by p s)) as [b [Hb Hpb]].
    exists a, b. split; [|now split].
    rewrite <- Hb. exact Ha.
  - intros c. destruct (lstrip_by p s) as [|x t] eqn:E.
    + discriminate.
    + pose proof (lstrip_by_head _ _ _ E) as Hx.
      destruct (rstrip_by_keeps_head x t Hx) as [t' ->].
      simpl. intros H. now injection H as <-.
  - intros c. apply rstrip_by_last.
Qed.

Lemma strip_by_incl (s : str) (c : ascii) :
  In c (strip_by p s) -> In c s.
Proof.
  destruct (strip_by_spec s) as [[a [b [E _]]] _].
  intros H. rewrite E. apply in_or_app. right. apply in_or_app. now left.
Qed.

Lemma strip_by_length (s : str) : length (strip_by p s) <= length s.
Proof.
  destruct (strip_by_spec s) as [[a [b [E _]]] _].
  rewrite E at 2. rewrite !length_app. lia.
Qed.

End Stripping.

(** ** Resource namer *)

Section ResourceNamer.

Ltac by_cases_on_char c :=
  destruct c as [[] [] [] [] [] [] [] []]; vm_compute;
  intros; try reflexivity; try discriminate; auto.

Lemma lower_char_ascii_alnum (c : ascii) :
  (ord c <? 128) = true -> isalnum (lower_char c) = true ->
  name_char (lower_char c) = true.
Proof. by_cases_on_char c. Qed.

Lemma lower_char_idem (c : ascii) : lower_char (lower_char c) = lower_char c.
Proof. by_cases_on_char c. Qed.

Lemma hex_digit_name_char (c : ascii) : hex_digit c = true -> name_char c = true.
Proof. by_cases_on_char c. Qed.

Lemma hex_digit_not_hyphen (c : ascii) : hex_digit c = true -> c <> HYPHEN.
Proof. intros H ->. discriminate H. Qed.

Lemma name_char_hyphen : name_char HYPHEN = true.
Proof. reflexivity. Qed.

Lemma mem_hyphen (c : ascii) : mem_char [HYPHEN] c = false -> c <> HYPHEN.
Proof. intros H ->. discriminate H. Qed.

Lemma str_or_nonempty (a b : str) : b <> [] -> str_or a b <> [].
Proof. destruct a; simpl; [auto|discriminate]. Qed.

Lemma prefix_nonempty (n : nat) (s : str) : 1 <= n -> s <> [] -> prefix n s <> [].
Proof. destruct n; [lia|]. destruct s; [congruence|]. discriminate. Qed.

Lemma prefix_first (n : nat) (s : str) :
  1 <= n -> first_char (prefix n s) = first_char s.
Proof. destruct n; [lia|]. destruct s; reflexivity. Qed.

Lemma prefix_incl (n : nat) (s : str) (c : ascii) : In c (prefix n s) -> In c s.
Proof.
  unfold prefix. intros H. rewrite <- (firstn_skipn n s).
  apply in_or_app. now left.
Qed.

(** The shape of a name: base, hyphen, the first eight hex digits. *)
Lemma file_resource_name_shape (hex value : str) :
  is_uuid_hex hex ->
  exists base,
    file_resource_name_with hex value = base ++ [HYPHEN] ++ prefix 8 hex
    /\ base = prefix 31 (str_or (normalized_title value) (lit "file"))
    /\ base <> []
    /\ length (prefix 8 hex) = 8.
Proof.
  intros [Hlen _].
  assert (H8 : length (prefix 8 hex) = 8)
    by (unfold prefix; rewrite length_firstn; lia).
  unfold file_resource_name_with. fold (normalized_title value).
  rewrite H8. change (Nat.max 1 (40 - 8 - 1)) with 31.
  set (slug := str_or (normalized_title value) (lit "file")).
  assert (Hslug : slug <> []) by (apply str_or_nonempty; discriminate).
  assert (Hbase : prefix 31 slug <> []) by (apply prefix_nonempty; [lia|auto]).
  exists (prefix 31 slug). repeat split; auto.
  unfold str_or at 1. destruct (prefix 31 slug); [congruence|reflexivity].
Qed.

Lemma normalized_title_first (value : str) (c : ascii) :
  first_char (normalized_title value) = Some c -> c <> HYPHEN.
Proof.
  intros H. apply mem_hyphen.
  unfold normalized_title, strip_chars in H.
  eapply (proj1 (proj2 (strip_by_spec _ _))); eauto.
Qed.

Lemma normalized_title_chars (value : str) (c : ascii) :
  In c (normalized_title value) ->
  c = HYPHEN \/ (isalnum c = true /\ exists x, In x value /\ c = lower_char x).
Proof.
  unfold normalized_title, strip_chars. intros H.
  apply strip_by_incl in H. apply in_map_iff in H as [y [Hy Hin]].
  destruct (isalnum y) eqn:Ey; [|now left].
  subst y. right. split; [exact Ey|].
  apply strip_by_incl in Hin. unfold lower in Hin.
  apply in_map_iff in Hin as [x [Hx Hin]]. eauto.
Qed.

(** What holds of the name for every title: its length, its two ends,
    the placeholder, and the characters it is made of. *)
Lemma file_resource_name_general (hex value : str) :
  is_uuid_hex hex ->
  let name := file_resource_name_with hex value in
  length name <= 40
  /\ (exists c, first_char name = Some c /\ c <> HYPHEN)
  /\ (exists c, last_char name = Some c /\ c <> HYPHEN)
  /\ (normalized_title value = [] ->
      name = lit "file" ++ [HYPHEN] ++ prefix 8 hex)
  /\ (forall c, In c name ->
      c = HYPHEN \/ (isalnum c = true /\ lower_char c = c)).
Proof.
  intros Hhex name.
  destruct (file_resource_name_shape hex value Hhex)
    as [base [Hname [Hbase [Hne H8]]]].
  fold name in Hname.
  assert (Hsuf : forall c, In c (prefix 8 hex) -> hex_digit c = true).
  { intros c Hc. apply prefix_incl in Hc. destruct Hhex as [_ Hall].
    rewrite forallb_forall in Hall. now apply Hall. }
  split; [|split; [|split; [|split]]].
  - rewrite Hname, !length_app, H8, Hbase.
    change (length [HYPHEN]) with 1.
    pose proof (prefix_length_le 31
                  (str_or (normalized_title value) (lit "file"))). lia.
  - rewrite Hname.
    destruct base as [|c base'] eqn:Eb; [congruence|].
    exists c. split; [reflexivity|].
    assert (Hc : first_char
                   (str_or (normalized_title value) (lit "file")) = Some c).
    { rewrite <- (prefix_first 31) by lia. now rewrite <- Hbase. }
    unfold str_or in Hc.
    destruct (normalized_title value) as [|y t] eqn:En; simpl in Hc.
    + injection Hc as <-. discriminate.
    + injection Hc as <-. apply (normalized_title_first value).
      now rewrite En.
  - rewrite Hname. unfold last_char.
    rewrite !rev_app_distr.
    destruct (rev (prefix 8 hex)) as [|c t] eqn:Er.
    + apply (f_equal (@length ascii)) in Er.
      rewrite length_rev, H8 in Er. discriminate.
    + exists c. split; [reflexivity|].
      apply hex_digit_not_hyphen, Hsuf, in_rev. rewrite Er. now left.
  - intros En. rewrite Hname, Hbase, En. reflexivity.
  - intros c Hc. rewrite Hname in Hc.
    apply in_app_or in Hc as [Hc|Hc]; [|apply in_app_or in Hc as [Hc|Hc]].
    + rewrite Hbase in Hc. apply prefix_incl in Hc. unfold str_or in Hc.
      destruct (truthy (normalized_title value)).
      * apply normalized_title_chars in Hc as [->|[Ha [x [_ ->]]]];
          [now left|right].
        split; [exact Ha|apply lower_char_idem].
      * right. simpl in Hc.
        repeat (destruct Hc as [<-|Hc]; [now split|]). destruct Hc.
    + simpl in Hc. destruct Hc as [<-|[]]. now left.
    + right. apply Hsuf in Hc. revert Hc. clear. by_cases_on_char c.
Qed.

(** For a title of ASCII characters, everything the namer promises holds:
    only [a-z], [0-9] and [-], no hyphen at either end, at most 40
    characters, and the placeholder for an empty base. *)
Lemma file_resource_name_ascii (hex value : str) :
  is_uuid_hex hex ->
  is_ascii value = true ->
  let name := file_resource_name_with hex value in
  forallb name_char name = true
  /\ length name <= 40
  /\ (exists c, first_char name = Some c /\ c <> HYPHEN)
  /\ (exists c, last_char name = Some c /\ c <> HYPHEN)
  /\ (normalized_title value = [] ->
      name = lit "file" ++ [HYPHEN] ++ prefix 8 hex).
Proof.
  intros Hhex Hascii name.
  destruct (file_resource_name_general hex value Hhex)
    as [Hlen [Hfirst [Hlast [Hph _]]]].
  fold name in Hlen, Hfirst, Hlast, Hph.
  split; [|now repeat split].
  destruct (file_resource_name_shape hex value Hhex)
    as [base [Hname [Hbase [Hne H8]]]].
  fold name in Hname. rewrite Hname.
  apply forallb_forall. intros c Hc.
  apply in_app_or in Hc as [Hc|Hc]; [|apply in_app_or in Hc as [Hc|Hc]].
  - rewrite Hbase in Hc. apply prefix_incl in Hc. unfold str_or in Hc.
    destruct (truthy (normalized_title value)).
    + apply normalized_title_chars in Hc as [->|[Ha [x [Hx ->]]]];
        [reflexivity|].
      apply lower_char_ascii_alnum; [|exact Ha].
      unfold is_ascii in Hascii. rewrite forallb_forall in Hascii.
      now apply Hascii.
    + simpl in Hc.
      repeat (destruct Hc as [<-|Hc]; [reflexivity|]). destruct Hc.
  - simpl in Hc. destruct Hc as [<-|[]]. reflexivity.
  - apply prefix_incl in Hc. destruct Hhex as [_ Hall].
    rewrite forallb_forall in Hall. now apply hex_digit_name_char, Hall.
Qed.

Lemma file_resource_name_ascii_witness :
  let name := file_resource_name_with Fake.HEX (lit "  Carl Jung: Man & His Symbols ") in
  forallb name_char name = true
  /\ length name <= 40
  /\ (exists c, first_char name = Some c /\ c <> HYPHEN)
  /\ (exists c, last_char name = Some c /\ c <> HYPHEN)
  /\ (normalized_title (lit "  Carl Jung: Man & His Symbols ") = [] ->
      name = lit "file" ++ [HYPHEN] ++ prefix 8 Fake.HEX).
Proof.
  apply (file_resource_name_ascii Fake.HEX).
  - split; reflexivity.
  - reflexivity.
Defined.

(** C4 at the title [é] (U+00E9): [str.isalnum] accepts the letter, so it
    stays in the name, which then holds a character outside [a-z0-9-]. *)
Theorem C4_name_keeps_non_ascii_letter :
  isalnum (chr 233) = true
  /\ lower [chr 233] = [chr 233]
  /\ file_resource_name_with Fake.HEX [chr 233] = chr 233 :: lit "-01234567"
  /\ forallb name_char (file_resource_name_with Fake.HEX [chr 233]) = false.
Proof. vm_compute. repeat split; reflexivity. Qed.

End ResourceNamer.

(** ** Parsing of suggested questions *)

Section Suggestions.

Lemma Subseq_refl {A} (l : list A) : Subseq l l.
Proof. induction l; [apply Subseq_nil|now apply Subseq_keep]. Qed.

Lemma Subseq_nil_l {A} (l : list A) : Subseq [] l.
Proof. induction l; [apply Subseq_nil|now apply Subseq_skip]. Qed.

Lemma Subseq_trans {A} (a b c : list A) :
  Subseq a b -> Subseq b c -> Subseq a c.
Proof.
  intros Hab Hbc. revert a Hab.
  induction Hbc as [|x b c Hbc IH|x b c Hbc IH]; intros a Hab.
  - exact Hab.
  - apply Subseq_skip. now apply IH.
  - inversion Hab; subst.
    + apply Subseq_skip. now apply IH.
    + apply Subseq_keep. now apply IH.
Qed.

Lemma Subseq_filter {A} (f : A -> bool) (l : list A) : Subseq (filter f l) l.
Proof.
  induction l as [|x l IH]; simpl; [apply Subseq_nil|].
  destruct (f x); [now apply Subseq_keep|now apply Subseq_skip].
Qed.

Lemma Subseq_firstn {A} (n : nat) (l : list A) : Subseq (firstn n l) l.
Proof.
  revert n. induction l as [|x l IH]; intros [|n]; simpl.
  - apply Subseq_nil.
  - apply Subseq_nil.
  - apply Subseq_nil_l.
  - apply Subseq_keep, IH.
Qed.

Lemma Subseq_map {A B} (f : A -> B) (a b : list A) :
  Subseq a b -> Subseq (map f a) (map f b).
Proof.
  induction 1; simpl;
    [apply Subseq_nil|now apply Subseq_skip|now apply Subseq_keep].
Qed.

Lemma slice_to_nonneg {A} (n : Z) (l : list A) :
  (0 <= n)%Z -> slice_to n l = firstn (Z.to_nat n) l.
Proof.
  intros H. unfold slice_to.
  destruct (0 <=? n)%Z eqn:E; [reflexivity|].
  apply Z.leb_gt in E. lia.
Qed.

Lemma split_on_nonempty (sep : ascii) (s : str) : split_on sep s <> [].
Proof.
  destruct s as [|c s]; simpl; [discriminate|].
  destruct (Ascii.eqb c sep); [discriminate|].
  destruct (split_on sep s); discriminate.
Qed.

(** Splitting cuts exactly at the separators: joining the pieces gives the
    text back, and no piece holds a separator. *)
Lemma split_on_spec (sep : ascii) (s : str) :
  join_on sep (split_on sep s) = s
  /\ Forall (fun l => ~ In sep l) (split_on sep s).
Proof.
  induction s as [|c s [IHj IHf]]; simpl.
  - split; [reflexivity|]. constructor; [intros []|constructor].
  - destruct (Ascii.eqb c sep) eqn:E.
    + apply Ascii.eqb_eq in E. subst c. split.
      * pose proof (split_on_nonempty sep s) as Hne.
        destruct (split_on sep s) as [|l ls]; [congruence|].
        simpl. simpl in IHj. now rewrite IHj.
      * constructor; [intros []|exact IHf].
    + pose proof (split_on_nonempty sep s) as Hne.
      destruct (split_on sep s) as [|l ls]; [congruence|].
      apply Ascii.eqb_neq in E. split.
      * destruct ls as [|l' ls]; simpl in *; now rewrite <- IHj.
      * inversion IHf; subst. constructor; [|assumption].
        intros [Hc|Hin]; [congruence|contradiction].
Qed.

(** C8, as stated, fails for a negative count: Python's [[:count]] then
    drops items from the end, so with the count [-1] the three questions
    that survive in the sample response give two items, more than the
    count. *)
Lemma C8_negative_count_counterexample :
  length (parse_suggestions sample_response 9) = 3
  /\ length (parse_suggestions sample_response (-1)) = 2
  /\ (Z.of_nat (length (parse_suggestions sample_response (-1))) <=? -1)%Z
     = false.
Proof. vm_compute. repeat split; reflexivity. Qed.

(** C8 (amended): for every response text and every requested count that
    is not negative, the parsing at the end of [suggest_questions] cuts
    the response at its line breaks, trims the bullet characters from both
    ends of a line, keeps no line whose trimmed length is 10 or less,
    returns at most [count] items, and returns them in the order of the
    response. *)
Theorem C8_parse_suggestions (text : str) (count : Z) :
  (0 <= count)%Z ->
  let lines := split_on NEWLINE text in
  let trim := strip_chars BULLET_CHARS in
  let out := parse_suggestions text count in
  join_on NEWLINE lines = text
  /\ Forall (fun l => ~ In NEWLINE l) lines
  /\ (forall l, exists a b,
        l = a ++ trim l ++ b
        /\ forallb (mem_char BULLET_CHARS) a = true
        /\ forallb (mem_char BULLET_CHARS) b = true)
  /\ (forall l c, first_char (trim l) = Some c \/ last_char (trim l) = Some c ->
        mem_char BULLET_CHARS c = false)
  /\ Subseq out (map trim lines)
  /\ Forall (fun q => 10 < length q) out
  /\ (Z.of_nat (length out) <= count)%Z
  /\ out = firstn (Z.to_nat count)
             (filter (fun q => 10 <? length q)
                (map trim (filter (fun q => truthy (strip q)) lines))).
Proof.
  intros Hcount lines trim out.
  assert (Hout : out = firstn (Z.to_nat count)
             (filter (fun q => 10 <? length q)
                (map trim (filter (fun q => truthy (strip q)) lines)))).
  { unfold out, parse_suggestions. now rewrite slice_to_nonneg. }
  destruct (split_on_spec NEWLINE text) as [Hjoin Hlines].
  split; [exact Hjoin|]. split; [exact Hlines|].
  split; [intros l; apply (proj1 (strip_by_spec _ l))|].
  split.
  { intros l c [H|H].
    - now apply (proj1 (proj2 (strip_by_spec _ l))).
    - now apply (proj2 (proj2 (strip_by_spec _ l))). }
  split; [|split; [|split; [|exact Hout]]].
  - rewrite Hout.
    eapply Subseq_trans; [apply Subseq_firstn|].
    eapply Subseq_trans; [apply Subseq_filter|].
    apply Subseq_map, Subseq_filter.
  - rewrite Hout. apply Forall_forall. intros q Hq.
    assert (Hq' : In q (filter (fun q => 10 <? length q)
                (map trim (filter (fun q => truthy (strip q)) lines)))).
    { rewrite <- (firstn_skipn (Z.to_nat count)). apply in_or_app. now left. }
    apply filter_In in Hq' as [_ Hq']. now apply Nat.ltb_lt.
  - rewrite Hout, length_firstn. lia.
Qed.

Lemma C8_parse_suggestions_witness :
  let text := sample_response in
  let lines := split_on NEWLINE text in
  let trim := strip_chars BULLET_CHARS in
  let out := parse_suggestions text 2 in
  join_on NEWLINE lines = text
  /\ Forall (fun l => ~ In NEWLINE l) lines
  /\ (forall l, exists a b,
        l = a ++ trim l ++ b
        /\ forallb (mem_char BULLET_CHARS) a = true
        /\ forallb (mem_char BULLET_CHARS) b = true)
  /\ (forall l c, first_char (trim l) = Some c \/ last_char (trim l) = Some c ->
        mem_char BULLET_CHARS c = false)
  /\ Subseq out (map trim lines)
  /\ Forall (fun q => 10 < length q) out
  /\ (Z.of_nat (length out) <= 2)%Z
  /\ out = firstn (Z.to_nat 2)
             (filter (fun q => 10 <? length q)
                (map trim (filter (fun q => truthy (strip q)) lines))).
Proof. apply (C8_parse_suggestions sample_response 2). lia. Defined.

(** On the sample response the two first questions come back, trimmed. *)
Example parse_suggestions_sample :
  parse_suggestions sample_response 2 =
  [lit "What does the author say about dreams?";
   lit "How are symbols formed?"].
Proof. reflexivity. Qed.

End Suggestions.

(** ** Traces *)

Section Traces.

Context {S : Type} (svc : Service S).

Lemma new_events_app (w w' : World S) (evs : list Event) :
  trace w' = trace w ++ evs -> new_events w w' = evs.
Proof.
  intros H. unfold new_events. rewrite H.
  rewrite skipn_app, skipn_all, Nat.sub_diag. reflexivity.
Qed.

Lemma imports_of_app (a b : list Event) :
  imports_of (a ++ b) = imports_of a ++ imports_of b.
Proof. unfold imports_of. apply flat_map_app. Qed.

Lemma store_resolutions_app (a b : list Event) :
  store_resolutions (a ++ b) = store_resolutions a + store_resolutions b.
Proof. unfold store_resolutions. now rewrite filter_app, length_app. Qed.

Lemma polls_no_import (evs : list Event) :
  forallb poll_event evs = true ->
  imports_of evs = [] /\ store_resolutions evs = 0.
Proof.
  induction evs as [|e evs IH]; simpl; [now split|].
  intros H. apply andb_true_iff in H as [He Hevs].
  destruct (IH Hevs) as [Hi Hs].
  destruct e; try discriminate; simpl; now split.
Qed.

Lemma extends_refl (w : World S) : extends w w [].
Proof. unfold extends. now rewrite app_nil_r. Qed.

Lemma extends_trans (w w1 w2 : World S) (a b : list Event) :
  extends w w1 a -> extends w1 w2 b -> extends w w2 (a ++ b).
Proof.
  unfold extends. intros [Ha [Hl Hk]] [Hb [Hl' Hk']].
  rewrite Hb, Ha, app_assoc. repeat split; congruence.
Qed.

Lemma extends_event (w : World S) (s : S) (ev : Event) :
  extends w (with_remote w s ev) [ev].
Proof. unfold extends. now repeat split. Qed.

Lemma call_inv {A} (ev : Event) (f : S -> reply A * S) (w : World S) :
  exists s',
    (exists a, f (remote w) = (Reply a, s')
               /\ call ev f w = (Ok a, with_remote w s' ev))
    \/ (exists e, f (remote w) = (Error e, s')
                  /\ call ev f w = (Raise e, with_remote w s' ev)).
Proof.
  unfold call. destruct (f (remote w)) as [[a|e] s']; exists s'; eauto.
Qed.

(** The polling loop only sleeps and refreshes the operation. *)
Lemma wait_for_operation_events (fuel : nat) (op : Operation) (w : World S) :
  exists evs,
    extends w (snd (wait_for_operation svc fuel op w)) evs
    /\ forallb poll_event evs = true.
Proof.
  revert op w. induction fuel as [|fuel IH]; intros op w; simpl.
  - destruct (op_done op); simpl; exists []; split;
      auto using extends_refl.
  - destruct (op_done op); simpl.
    + exists []. split; auto using extends_refl.
    + unfold bind, sleep, emit, call. simpl.
      destruct (operations_get svc op (remote w)) as [[op'|e] s']; simpl.
      * destruct (IH op'
                    (with_remote (with_event w (ESleep 5)) s' (EOperationGet op)))
          as [evs [Hext Hpoll]].
        exists ([ESleep 5] ++ [EOperationGet op] ++ evs). split.
        -- eapply extends_trans; [apply extends_event|].
           eapply extends_trans; [apply extends_event|]. exact Hext.
        -- simpl. exact Hpoll.
      * exists ([ESleep 5] ++ [EOperationGet op]). split; [|reflexivity].
        eapply extends_trans; apply extends_event.
Qed.

(** What [wait_for_operation] returns is done, and is either the
    operation it was given or, untouched, the last answer of the service. *)
Lemma wait_for_operation_returns (fuel : nat) (op op' : Operation)
    (w w' : World S) :
  wait_for_operation svc fuel op w = (Ok op', w') ->
  op_done op' = true
  /\ ((op' = op /\ w' = w)
      \/ exists asked s s',
           operations_get svc asked s = (Reply op', s')
           /\ remote w' = s'
           /\ exists before, trace w' = before ++ [EOperationGet asked]).
Proof.
  revert op w. induction fuel as [|fuel IH]; intros op w; simpl.
  - destruct (op_done op) eqn:Hd; simpl; [|discriminate].
    unfold ret. intros H. injection H as <- <-. auto.
  - destruct (op_done op) eqn:Hd; simpl.
    + unfold ret. intros H. injection H as <- <-. auto.
    + unfold bind, sleep, emit, call. simpl.
      destruct (operations_get svc op (remote w)) as [[op1|e] s1] eqn:Hget;
        simpl; [|discriminate].
      intros H. destruct (IH _ _ H) as [Hdone [[-> ->]|Hlater]].
      * split; [exact Hdone|]. right.
        exists op, (remote w), s1. split; [exact Hget|].
        split; [reflexivity|]. simpl. eauto.
      * split; [exact Hdone|]. right. exact Hlater.
Qed.

(** More fuel never changes an outcome that was reached. *)
Lemma wait_for_operation_fuel (fuel extra : nat) (op : Operation)
    (w : World S) :
  fst (wait_for_operation svc fuel op w) <> Diverge ->
  wait_for_operation svc (fuel + extra) op w
  = wait_for_operation svc fuel op w.
Proof.
  revert op w. induction fuel as [|fuel IH]; intros op w; simpl.
  - destruct (op_done op) eqn:Hd; simpl.
    + intros _. destruct extra; simpl; now rewrite Hd.
    + intros H. now contradiction H.
  - destruct (op_done op) eqn:Hd; simpl; [reflexivity|].
    unfold bind, sleep, emit, call. simpl.
    destruct (operations_get svc op (remote w)) as [[op1|e] s1]; simpl;
      [|reflexivity].
    apply IH.
Qed.

(** With as much fuel as the service needs refreshes, the loop ends. *)
Lemma wait_for_operation_ends (n : nat) (op : Operation) (w : World S) :
  settles_within svc n op (remote w) ->
  fst (wait_for_operation svc n op w) <> Diverge.
Proof.
  revert op w. induction n as [|n IH]; intros op w; simpl.
  - intros [Hd|[]]. rewrite Hd. discriminate.
  - destruct (op_done op) eqn:Hd; simpl; [discriminate|].
    intros [Hd'|Hn]; [discriminate|].
    unfold bind, sleep, emit, call. simpl.
    destruct (operations_get svc op (remote w)) as [[op1|e] s1]; simpl;
      [|discriminate].
    apply IH. exact Hn.
Qed.

End Traces.

(** ** Ingestion orchestrator *)

Section Ingestion.

Context {S : Type} (svc : Service S).

(** The metadata of one import: exactly two entries. *)
Lemma book_metadata_keys (book_title : str) :
  book_metadata book_title =
  [ {| key := lit "source_type"; string_value := lit "book" |};
    {| key := lit "book_title"; string_value := book_title |} ]
  /\ map key (book_metadata book_title)
     = [lit "source_type"; lit "book_title"].
Proof. split; reflexivity. Qed.

(** The loop body, call by call. *)
Lemma ingest_pdfs_body_unfold (fuel : nat) (store : FileSearchStore)
    (idx : nat) (p : Path) (w : World S) :
  ingest_pdfs_body svc fuel store idx p w =
  let book_title := stem (path_name p) in
  let name := file_resource_name_with (uuid_hex w (uuid_drawn w)) book_title in
  let w1 := with_uuid_drawn
              (with_event w (EPrint (MsgUploading idx (path_name p))))
              (Datatypes.S (uuid_drawn w)) in
  match files_upload svc p name book_title (remote w) with
  | (Error e, s2) => (Raise e, with_remote w1 s2 (EUpload p name book_title))
  | (Reply uploaded_file, s2) =>
      let w2 := with_remote w1 s2 (EUpload p name book_title) in
      let ev := EImport (store_name_of store) (file_name_of uploaded_file)
                  (book_metadata book_title) in
      match stores_import_file svc (store_name_of store)
              (file_name_of uploaded_file) (book_metadata book_title) s2 with
      | (Error e, s3) => (Raise e, with_remote w2 s3 ev)
      | (Reply op, s3) =>
          match wait_for_operation svc fuel op (with_remote w2 s3 ev) with
          | (Ok _, w4) =>
              (Ok tt, with_event w4 (EPrint (MsgIndexed idx (path_name p))))
          | (Raise e, w4) => (Raise e, w4)
          | (Diverge, w4) => (Diverge, w4)
          end
      end
  end.
Proof.
  unfold ingest_pdfs_body, bind, print, emit, file_resource_name, call.
  simpl.
  destruct (files_upload svc p _ _ (remote w)) as [[uf|e] s2]; simpl;
    [|reflexivity].
  destruct (stores_import_file svc _ _ _ s2) as [[op|e] s3]; simpl;
    [|reflexivity].
  destruct (wait_for_operation svc fuel op _) as [[op'|e|] w4]; reflexivity.
Qed.

Lemma extends_uuid (w w' : World S) (evs : list Event) (n : nat) :
  extends w w' evs -> extends w (with_uuid_drawn w' n) evs.
Proof. unfold extends. simpl. auto. Qed.

Lemma extends_uuid_l (w w' : World S) (evs : list Event) (n : nat) :
  extends (with_uuid_drawn w n) w' evs -> extends w w' evs.
Proof. unfold extends. simpl. auto. Qed.

(** The events of one turn of the loop: no store is fetched or created,
    and the one import, when it is reached, names the store of the batch
    and carries the two entries. *)
Lemma ingest_pdfs_body_events (fuel : nat) (store : FileSearchStore)
    (idx : nat) (p : Path) (w : World S) :
  let run := ingest_pdfs_body svc fuel store idx p w in
  let sent := (store_name_of store, book_metadata (stem (path_name p))) in
  exists evs,
    extends w (snd run) evs
    /\ store_resolutions evs = 0
    /\ (imports_of evs = [] \/ imports_of evs = [sent])
    /\ (fst run = Ok tt -> imports_of evs = [sent]).
Proof.
  intros run sent. unfold run. rewrite ingest_pdfs_body_unfold. simpl.
  set (w1 := with_uuid_drawn _ _).
  assert (H1 : extends w w1 [EPrint (MsgUploading idx (path_name p))])
    by (apply extends_uuid, extends_event).
  destruct (files_upload svc p _ _ (remote w)) as [[uf|e] s2]; simpl.
  - set (up := EUpload _ _ _). set (w2 := with_remote w1 s2 up).
    assert (H2 : extends w w2 ([EPrint (MsgUploading idx (path_name p))] ++ [up]))
      by (eapply extends_trans; [exact H1|apply extends_event]).
    destruct (stores_import_file svc _ _ _ s2) as [[op|e] s3]; simpl.
    + set (im := EImport _ _ _). set (w3 := with_remote w2 s3 im).
      assert (H3 : extends w w3
                (([EPrint (MsgUploading idx (path_name p))] ++ [up]) ++ [im]))
        by (eapply extends_trans; [exact H2|apply extends_event]).
      destruct (wait_for_operation_events svc fuel op w3) as [evs [H4 Hpoll]].
      destruct (polls_no_import evs Hpoll) as [Hi Hs].
      destruct (wait_for_operation svc fuel op w3) as [[op'|e|] w4]; simpl in *.
      * eexists. split.
        -- eapply extends_trans; [|apply extends_event].
           eapply extends_trans; [exact H3|exact H4].
        -- rewrite !store_resolutions_app, !imports_of_app, Hi, Hs. simpl.
           auto.
      * eexists. split; [eapply extends_trans; [exact H3|exact H4]|].
        rewrite !store_resolutions_app, !imports_of_app, Hi, Hs. simpl.
        repeat split; auto; try discriminate.
      * eexists. split; [eapply extends_trans; [exact H3|exact H4]|].
        rewrite !store_resolutions_app, !imports_of_app, Hi, Hs. simpl.
        repeat split; auto; try discriminate.
    + eexists. split; [eapply extends_trans; [exact H2|apply extends_event]|].
      simpl. repeat split; auto; try discriminate.
  - eexists. split; [eapply extends_trans; [exact H1|apply extends_event]|].
    simpl. repeat split; auto; try discriminate.
Qed.

(** The loop over a batch that is cut in two. *)
Lemma ingest_pdfs_loop_app (fuel : nat) (store : FileSearchStore)
    (pre rest : list Path) (idx : nat) (w : World S) :
  ingest_pdfs_loop svc fuel store idx (pre ++ rest) w =
  match ingest_pdfs_loop svc fuel store idx pre w with
  | (Ok _, w') =>
      ingest_pdfs_loop svc fuel store (idx + length pre) rest w'
  | other => other
  end.
Proof.
  revert idx w. induction pre as [|p pre IH]; intros idx w; simpl.
  - unfold ret. now rewrite Nat.add_0_r.
  - unfold bind.
    destruct (ingest_pdfs_body svc fuel store idx p w) as [[[]|e|] w1];
      try reflexivity.
    rewrite IH. now rewrite Nat.add_succ_r.
Qed.

(** The events of the loop: the imports are those of the first [k] files,
    in order, each for the store of the batch; [k] is the whole batch when
    the loop returns. *)
Lemma ingest_pdfs_loop_events (fuel : nat) (store : FileSearchStore)
    (pdf_files : list Path) (idx : nat) (w : World S) :
  let run := ingest_pdfs_loop svc fuel store idx pdf_files w in
  exists evs k,
    extends w (snd run) evs
    /\ store_resolutions evs = 0
    /\ k <= length pdf_files
    /\ imports_of evs =
       map (fun p => (store_name_of store, book_metadata (stem (path_name p))))
           (firstn k pdf_files)
    /\ (fst run = Ok tt -> k = length pdf_files).
Proof.
  revert idx w. induction pdf_files as [|p rest IH]; intros idx w; simpl.
  - exists [], 0. split; [apply extends_refl|]. repeat split; auto.
  - unfold bind.
    destruct (ingest_pdfs_body_events fuel store idx p w)
      as [evs [Hext [Hs [Hi Hok]]]].
    destruct (ingest_pdfs_body svc fuel store idx p w) as [[[]|e|] w1];
      simpl in *.
    + destruct (IH (Datatypes.S idx) w1) as [evs' [k [Hext' [Hs' [Hk [Hi' Hok']]]]]].
      exists (evs ++ evs'), (Datatypes.S k).
      split; [eapply extends_trans; eauto|].
      rewrite store_resolutions_app, imports_of_app, Hs, Hs', Hi', (Hok eq_refl).
      simpl. repeat split; auto; try lia.
      all: try (intros H; now rewrite (Hok' H)).
    + destruct Hi as [Hi|Hi].
      * exists evs, 0. split; [exact Hext|]. rewrite Hi. simpl.
        repeat split; auto; try lia; try discriminate.
      * exists evs, 1. split; [exact Hext|]. rewrite Hi. simpl.
        repeat split; auto; try lia; try discriminate.
    + destruct Hi as [Hi|Hi].
      * exists evs, 0. split; [exact Hext|]. rewrite Hi. simpl.
        repeat split; auto; try lia; try discriminate.
      * exists evs, 1. split; [exact Hext|]. rewrite Hi. simpl.
        repeat split; auto; try lia; try discriminate.
Qed.

(** Resolving the store is one call, a fetch or a creation. *)
Lemma get_or_create_store_events (store_name : option str)
    (display_name : str) (w : World S) :
  exists evs,
    extends w (snd (get_or_create_store svc store_name display_name w)) evs
    /\ store_resolutions evs = 1
    /\ imports_of evs = [].
Proof.
  unfold get_or_create_store.
  destruct (opt_truthy store_name); unfold bind, print, emit, call, ret.
  - destruct (stores_get svc _ (remote w)) as [[store|e] s1]; simpl.
    + eexists. split; [eapply extends_trans; apply extends_event|].
      now split.
    + eexists. split; [apply extends_event|]. now split.
  - destruct (stores_create svc _ (remote w)) as [[store|e] s1]; simpl.
    + eexists. split; [eapply extends_trans; apply extends_event|].
      now split.
    + eexists. split; [apply extends_event|]. now split.
Qed.

Lemma get_client_ok (w : World S) :
  opt_truthy (env_api_key w) = true -> get_client w = (Ok tt, w).
Proof. unfold get_client. now intros ->. Qed.

Lemma glob_pdf_extends (folder : str) (w w' : World S) (evs : list Event) :
  extends w w' evs -> glob_pdf folder w' = glob_pdf folder w.
Proof. intros [_ [Hl _]]. unfold glob_pdf. now rewrite Hl. Qed.

(** [ingest_pdfs] once the credential is there and the store is resolved. *)
Lemma ingest_pdfs_resolved (fuel : nat) (folder : str)
    (store_name : option str) (display_name : str)
    (w w1 : World S) (store : FileSearchStore) :
  opt_truthy (env_api_key w) = true ->
  get_or_create_store svc store_name display_name w = (Ok store, w1) ->
  let w2 := with_event w1 (EPrint (MsgStoreHint (store_name_of store))) in
  ingest_pdfs svc fuel folder store_name display_name w =
  match glob_pdf folder w with
  | [] => (Ok None, with_event w2 (EPrint (MsgNoPdfs folder)))
  | _ :: _ =>
      match ingest_pdfs_loop svc fuel store 1 (glob_pdf folder w) w2 with
      | (Ok _, w3) => (Ok (Some (store_name_of store)), w3)
      | (Raise e, w3) => (Raise e, w3)
      | (Diverge, w3) => (Diverge, w3)
      end
  end.
Proof.
  intros Hkey Hstore w2.
  destruct (get_or_create_store_events store_name display_name w)
    as [evs [Hext _]].
  rewrite Hstore in Hext. simpl in Hext.
  assert (Hglob : glob_pdf folder w2 = glob_pdf folder w).
  { apply (glob_pdf_extends folder w w2 (evs ++ [EPrint (MsgStoreHint (store_name_of store))])).
    eapply extends_trans; [exact Hext|apply extends_event]. }
  unfold ingest_pdfs, bind. rewrite (get_client_ok w Hkey), Hstore.
  unfold print, emit. fold w2. rewrite Hglob.
  destruct (glob_pdf folder w) as [|p rest]; simpl; reflexivity.
Qed.

End Ingestion.

(** ** The claims about ingestion *)

(** One file fails in one of the three ways exactly when the loop body
    raises. *)
Lemma file_failure_iff {S} (svc : Service S) (fuel : nat)
    (store : FileSearchStore) (idx : nat) (p : Path) (w w' : World S)
    (e : exn) :
  file_failure svc fuel store idx p w e w'
  <-> ingest_pdfs_body svc fuel store idx p w = (Raise e, w').
Proof.
  rewrite ingest_pdfs_body_unfold. simpl. split.
  - intros H. destruct H as [s2 bt nm w1 Hup
                            |uf s2 s3 bt nm w1 w2 Hup Him
                            |uf s2 op s3 w4 bt nm w1 w2 w3 Hup Him Hwait];
      subst bt nm w1; rewrite Hup; try reflexivity.
    + subst w2. now rewrite Him.
    + subst w2 w3. now rewrite Him, Hwait.
  - destruct (files_upload svc p _ _ (remote w)) as [[uf|e1] s2] eqn:Hup.
    + destruct (stores_import_file svc _ _ _ s2) as [[op|e2] s3] eqn:Him.
      * destruct (wait_for_operation svc fuel op _) as [[op'|e3|] w4] eqn:Hw;
          intros H; try discriminate.
        injection H as -> ->. eapply wait_error; eauto.
      * intros H. injection H as -> <-. eapply import_error; eauto.
    + intros H. injection H as -> <-. now apply upload_error.
Qed.

(** C5: in every batch, each import that is submitted names the store
    that was resolved once at the start of the batch and carries exactly
    the two entries [source_type = "book"] and [book_title = <title>], the
    title being the stem of the file name; the imports follow the order of
    the files, and when the batch returns there is one for each of the N
    files. *)
Theorem C5_imports_metadata_and_store {S} (svc : Service S)
    (fuel : nat) (folder : str) (store_name : option str)
    (display_name : str) (w w1 : World S) (store : FileSearchStore) :
  opt_truthy (env_api_key w) = true ->
  get_or_create_store svc store_name display_name w = (Ok store, w1) ->
  let run := ingest_pdfs svc fuel folder store_name display_name w in
  let sent := new_events w (snd run) in
  let pdf_files := glob_pdf folder w in
  store_resolutions sent = 1
  /\ exists k,
       k <= length pdf_files
       /\ imports_of sent =
          map (fun p =>
                 (store_name_of store,
                  [ {| key := lit "source_type"; string_value := lit "book" |};
                    {| key := lit "book_title";
                       string_value := stem (path_name p) |} ]))
              (firstn k pdf_files)
       /\ (forall r, fst run = Ok r -> k = length pdf_files).
Proof.
  intros Hkey Hstore run sent pdf_files.
  destruct (get_or_create_store_events svc store_name display_name w)
    as [evs0 [Hext0 [Hs0 Hi0]]].
  rewrite Hstore in Hext0. simpl in Hext0.
  set (hint := EPrint (MsgStoreHint (store_name_of store))).
  assert (Hext2 : extends w (with_event w1 hint) (evs0 ++ [hint]))
    by (eapply extends_trans; [exact Hext0|apply extends_event]).
  unfold sent, run.
  rewrite (ingest_pdfs_resolved svc fuel folder store_name display_name
             w w1 store Hkey Hstore).
  simpl. fold hint. fold pdf_files.
  destruct pdf_files as [|p rest] eqn:Hfiles.
  - simpl.
    assert (Hext3 : extends w
              (with_event (with_event w1 hint) (EPrint (MsgNoPdfs folder)))
              ((evs0 ++ [hint]) ++ [EPrint (MsgNoPdfs folder)]))
      by (eapply extends_trans; [exact Hext2|apply extends_event]).
    rewrite (new_events_app _ _ _ (proj1 Hext3)).
    rewrite !store_resolutions_app, !imports_of_app, Hs0, Hi0.
    split; [reflexivity|]. exists 0. repeat split; auto.
  - destruct (ingest_pdfs_loop_events svc fuel store (p :: rest) 1
                (with_event w1 hint))
      as [evs [k [Hext [Hs [Hk [Hi Hok]]]]]].
    assert (Hsnd : forall (r : result unit) (w3 : World S),
               snd (match r with
                    | Ok _ => (Ok (Some (store_name_of store)), w3)
                    | Raise e => (Raise e, w3)
                    | Diverge => (Diverge, w3)
                    end) = w3)
      by (intros [?|?|] ?; reflexivity).
    destruct (ingest_pdfs_loop svc fuel store 1 (p :: rest)
                (with_event w1 hint)) as [r w3] eqn:Hloop.
    rewrite Hsnd. simpl in Hext, Hok.
    assert (Hext3 : extends w w3 ((evs0 ++ [hint]) ++ evs))
      by (eapply extends_trans; [exact Hext2|exact Hext]).
    rewrite (new_events_app _ _ _ (proj1 Hext3)).
    rewrite !store_resolutions_app, !imports_of_app, Hs0, Hi0, Hs, Hi.
    split; [reflexivity|]. exists k. split; [exact Hk|].
    split; [reflexivity|].
    intros r0 Hr. apply Hok. destruct r as [[]|e|]; try reflexivity;
      discriminate Hr.
Qed.

Lemma C5_imports_metadata_and_store_witness :
  let run := ingest_pdfs Fake.service 5 (lit "books") None (lit "X") healthy in
  let sent := new_events healthy (snd run) in
  let pdf_files := glob_pdf (lit "books") healthy in
  store_resolutions sent = 1
  /\ exists k,
       k <= length pdf_files
       /\ imports_of sent =
          map (fun p =>
                 (store_name_of store_X,
                  [ {| key := lit "source_type"; string_value := lit "book" |};
                    {| key := lit "book_title";
                       string_value := stem (path_name p) |} ]))
              (firstn k pdf_files)
       /\ (forall r, fst run = Ok r -> k = length pdf_files).
Proof.
  apply (C5_imports_metadata_and_store Fake.service 5 (lit "books") None
           (lit "X") healthy
           (snd (get_or_create_store Fake.service None (lit "X") healthy))
           store_X).
  - reflexivity.
  - vm_compute. reflexivity.
Defined.

(** On the sample folder the batch returns, after two imports into the
    one store, each with its own title. *)
Example ingest_pdfs_sample :
  let run := ingest_pdfs Fake.service 5 (lit "books") None (lit "X") healthy in
  fst run = Ok (Some (lit "fileSearchStores/X"))
  /\ imports_of (trace (snd run)) =
     [ (lit "fileSearchStores/X", book_metadata (lit "jung"));
       (lit "fileSearchStores/X", book_metadata (lit "rossi")) ].
Proof. vm_compute. split; reflexivity. Qed.

(** C7: when one file of a batch fails (its upload, its import submission
    or its wait), [ingest_pdfs] raises that very exception and stops in the
    world the failing call left: nothing is done for the files after it,
    and what was done for the files before it stays in the trace. *)
Theorem C7_failure_aborts_batch {S} (svc : Service S)
    (fuel : nat) (folder : str) (store_name : option str)
    (display_name : str) (w w1 w2 w3 : World S) (store : FileSearchStore)
    (pre post : list Path) (f : Path) (e : exn) :
  opt_truthy (env_api_key w) = true ->
  get_or_create_store svc store_name display_name w = (Ok store, w1) ->
  glob_pdf folder w = pre ++ f :: post ->
  ingest_pdfs_loop svc fuel store 1 pre
    (with_event w1 (EPrint (MsgStoreHint (store_name_of store))))
  = (Ok tt, w2) ->
  file_failure svc fuel store (1 + length pre) f w2 e w3 ->
  ingest_pdfs svc fuel folder store_name display_name w = (Raise e, w3)
  /\ exists done_before at_failure,
       trace w3 = trace w1
                  ++ [EPrint (MsgStoreHint (store_name_of store))]
                  ++ done_before ++ at_failure
       /\ imports_of done_before =
          map (fun p => (store_name_of store,
                         book_metadata (stem (path_name p)))) pre
       /\ length (imports_of at_failure) <= 1.
Proof.
  intros Hkey Hstore Hglob Hpre Hfail.
  apply file_failure_iff in Hfail.
  set (hint := EPrint (MsgStoreHint (store_name_of store))) in *.
  split.
  - rewrite (ingest_pdfs_resolved svc fuel folder store_name display_name
               w w1 store Hkey Hstore).
    simpl. fold hint. rewrite Hglob.
    rewrite ingest_pdfs_loop_app, Hpre.
    change (ingest_pdfs_loop svc fuel store (1 + length pre) (f :: post) w2)
      with (bind (ingest_pdfs_body svc fuel store (1 + length pre) f)
              (fun _ => ingest_pdfs_loop svc fuel store
                          (Datatypes.S (1 + length pre)) post) w2).
    unfold bind. rewrite Hfail.
    destruct pre; reflexivity.
  - destruct (ingest_pdfs_loop_events svc fuel store pre 1 (with_event w1 hint))
      as [evs [k [Hext [_ [_ [Hi Hok]]]]]].
    rewrite Hpre in Hext, Hok. simpl in Hext, Hok.
    rewrite (Hok eq_refl), firstn_all in Hi.
    destruct (ingest_pdfs_body_events svc fuel store (1 + length pre) f w2)
      as [evs' [Hext' [_ [Hi' _]]]].
    rewrite Hfail in Hext'. simpl in Hext'.
    exists evs, evs'. split; [|split].
    + destruct Hext as [Ht _]. destruct Hext' as [Ht' _].
      rewrite Ht', Ht. simpl. now rewrite <- !app_assoc.
    + exact Hi.
    + destruct Hi' as [-> | ->]; simpl; lia.
Qed.

Lemma C7_failure_aborts_batch_witness :
  let w1 := snd (get_or_create_store Fake.service None (lit "X") refusing) in
  let w2 := snd (ingest_pdfs_loop Fake.service 5 store_X 1 [jung_pdf]
                   (with_event w1 (EPrint (MsgStoreHint (store_name_of store_X))))) in
  let w3 := snd (ingest_pdfs_body Fake.service 5 store_X 2 rossi_pdf w2) in
  let e := RemoteError (lit "UPLOAD_FAILED") in
  ingest_pdfs Fake.service 5 (lit "books") None (lit "X") refusing = (Raise e, w3)
  /\ exists done_before at_failure,
       trace w3 = trace w1
                  ++ [EPrint (MsgStoreHint (store_name_of store_X))]
                  ++ done_before ++ at_failure
       /\ imports_of done_before =
          map (fun p => (store_name_of store_X,
                         book_metadata (stem (path_name p)))) [jung_pdf]
       /\ length (imports_of at_failure) <= 1.
Proof.
  intros w1 w2 w3 e.
  apply (C7_failure_aborts_batch Fake.service 5 (lit "books") None (lit "X")
           refusing w1 w2 w3 store_X [jung_pdf] [] rossi_pdf e).
  - reflexivity.
  - vm_compute. reflexivity.
  - vm_compute. reflexivity.
  - vm_compute. reflexivity.
  - apply file_failure_iff. vm_compute. reflexivity.
Defined.

(** C3, as stated, fails: the service ends the import of the first book
    with the failure status [FAILED]; [wait_for_operation] returns that
    operation, done and with its status, but [ingest_pdfs] drops it, prints
    that the file is indexed and returns the store name as for a success. *)
Lemma C3_failure_status_counterexample :
  let run := ingest_pdfs Fake.service 5 (lit "books") None (lit "X") failing in
  wait_for_operation Fake.service 5 failed_operation failing
    = (Ok failed_operation, failing)
  /\ op_error failed_operation = Some (lit "FAILED")
  /\ existsb (fun ev =>
                match ev with
                | EImport _ f _ =>
                    str_eqb (lit "operations/" ++ f) (op_name failed_operation)
                | _ => false
                end) (trace (snd run)) = true
  /\ Fake.import_error (remote (snd run)) = Some (lit "FAILED")
  /\ fst run = Ok (Some (lit "fileSearchStores/X"))
  /\ existsb (fun ev =>
                match ev with
                | EPrint (MsgIndexed 1 n) => str_eqb n (lit "jung.pdf")
                | _ => false
                end) (trace (snd run)) = true.
Proof. vm_compute. repeat split; reflexivity. Qed.

(** C3 (amended): [wait_for_operation] returns only an operation whose
    completion flag is set, and returns it as it is: the operation it was
    given, or the last answer of the service to a status refresh, with
    whatever failure status that answer carries.  Its caller in
    [ingest_pdfs] does not look at the returned operation: once the wait
    returns, the file is reported as indexed and the loop goes on,
    whatever the failure status. *)
Theorem C3_wait_returns_terminal_operation {S} (svc : Service S)
    (fuel : nat) (store : FileSearchStore) (idx : nat) (p : Path)
    (w w4 : World S) (uploaded_file : UploadedFile) (s2 s3 : S)
    (op op' : Operation) :
  let book_title := stem (path_name p) in
  let name := file_resource_name_with (uuid_hex w (uuid_drawn w)) book_title in
  let w1 := with_uuid_drawn
              (with_event w (EPrint (MsgUploading idx (path_name p))))
              (Datatypes.S (uuid_drawn w)) in
  let w2 := with_remote w1 s2 (EUpload p name book_title) in
  let w3 := with_remote w2 s3
              (EImport (store_name_of store) (file_name_of uploaded_file)
                 (book_metadata book_title)) in
  files_upload svc p name book_title (remote w) = (Reply uploaded_file, s2) ->
  stores_import_file svc (store_name_of store) (file_name_of uploaded_file)
    (book_metadata book_title) s2 = (Reply op, s3) ->
  wait_for_operation svc fuel op w3 = (Ok op', w4) ->
  op_done op' = true
  /\ ((op' = op /\ w4 = w3)
      \/ exists asked s s',
           operations_get svc asked s = (Reply op', s')
           /\ remote w4 = s'
           /\ exists before, trace w4 = before ++ [EOperationGet asked])
  /\ ingest_pdfs_body svc fuel store idx p w
     = (Ok tt, with_event w4 (EPrint (MsgIndexed idx (path_name p)))).
Proof.
  intros book_title name w1 w2 w3 Hup Him Hwait.
  destruct (wait_for_operation_returns svc fuel op op' w3 w4 Hwait)
    as [Hdone Hfrom].
  split; [exact Hdone|]. split; [exact Hfrom|].
  rewrite ingest_pdfs_body_unfold. simpl.
  fold book_title. fold name. fold w1. rewrite Hup.
  fold w2. rewrite Him. fold w3. now rewrite Hwait.
Qed.

Lemma C3_wait_returns_terminal_operation_witness :
  let w := with_event
             (snd (get_or_create_store Fake.service None (lit "X") failing))
             (EPrint (MsgStoreHint (store_name_of store_X))) in
  let w4 := snd (wait_for_operation Fake.service 5 failed_operation
                   (snd (call (EImport (store_name_of store_X)
                                 (lit "files/jung-01234567")
                                 (book_metadata (lit "jung")))
                           (stores_import_file Fake.service
                              (store_name_of store_X)
                              (lit "files/jung-01234567")
                              (book_metadata (lit "jung")))
                           (snd (call (EUpload jung_pdf (lit "jung-01234567")
                                         (lit "jung"))
                                   (files_upload Fake.service jung_pdf
                                      (lit "jung-01234567") (lit "jung"))
                                   (with_uuid_drawn
                                      (with_event w
                                         (EPrint (MsgUploading 1 (lit "jung.pdf"))))
                                      1)))))) in
  op_done failed_operation = true
  /\ ingest_pdfs_body Fake.service 5 store_X 1 jung_pdf w
     = (Ok tt, with_event w4 (EPrint (MsgIndexed 1 (lit "jung.pdf")))).
Proof.
  intros w w4.
  destruct (C3_wait_returns_terminal_operation Fake.service 5 store_X 1
              jung_pdf w w4
              {| file_name_of := lit "files/jung-01234567" |}
              (snd (files_upload Fake.service jung_pdf (lit "jung-01234567")
                      (lit "jung") (remote w)))
              (snd (stores_import_file Fake.service (store_name_of store_X)
                      (lit "files/jung-01234567") (book_metadata (lit "jung"))
                      (snd (files_upload Fake.service jung_pdf
                              (lit "jung-01234567") (lit "jung") (remote w)))))
              failed_operation failed_operation)
    as [Hdone [_ Hbody]].
  - vm_compute. reflexivity.
  - vm_compute. reflexivity.
  - vm_compute. reflexivity.
  - split; [exact Hdone|exact Hbody].
Defined.

(** C2, as stated, fails: for a folder without PDF the store is created,
    and [ingest_pdfs] returns [None]: no count and no store identifier. *)
Lemma C2_empty_folder_counterexample :
  let run := ingest_pdfs Fake.service 5 (lit "empty") None (lit "X") healthy in
  glob_pdf (lit "empty") healthy = []
  /\ Fake.stores (remote (snd run)) = [lit "fileSearchStores/X"]
  /\ fst run = Ok None.
Proof. vm_compute. repeat split; reflexivity. Qed.

(** C2 (amended): [ingest_pdfs] returns a store identifier alone, not a
    pair with a count.  Once the credential is there and the store is
    resolved, a folder without matching PDF makes it print a warning and
    return [None], neither a count nor the store identifier, without
    raising and without any upload or import; and a folder with PDFs whose
    files all go through makes it return the name of the resolved
    store. *)
Theorem C2_ingest_results {S} (svc : Service S)
    (fuel : nat) (folder : str) (store_name : option str)
    (display_name : str) (w w1 : World S) (store : FileSearchStore) :
  opt_truthy (env_api_key w) = true ->
  get_or_create_store svc store_name display_name w = (Ok store, w1) ->
  let w2 := with_event w1 (EPrint (MsgStoreHint (store_name_of store))) in
  let run := ingest_pdfs svc fuel folder store_name display_name w in
  (glob_pdf folder w = [] ->
     run = (Ok None, with_event w2 (EPrint (MsgNoPdfs folder)))
     /\ uploads_of (new_events w1 (snd run)) = []
     /\ imports_of (new_events w1 (snd run)) = [])
  /\ (glob_pdf folder w <> [] ->
      forall w3,
        ingest_pdfs_loop svc fuel store 1 (glob_pdf folder w) w2 = (Ok tt, w3) ->
        run = (Ok (Some (store_name_of store)), w3)).
Proof.
  intros Hkey Hstore w2 run.
  pose proof (ingest_pdfs_resolved svc fuel folder store_name display_name
                w w1 store Hkey Hstore) as Hrun.
  simpl in Hrun. fold w2 in Hrun. fold run in Hrun.
  split.
  - intros Hglob. rewrite Hrun, Hglob.
    split; [reflexivity|].
    rewrite (new_events_app w1 _
               [EPrint (MsgStoreHint (store_name_of store));
                EPrint (MsgNoPdfs folder)]).
    + now split.
    + simpl. now rewrite <- app_assoc.
  - intros Hglob w3 Hloop. rewrite Hrun, Hloop.
    destruct (glob_pdf folder w); [congruence|reflexivity].
Qed.

Lemma C2_ingest_results_witness :
  let w := healthy in
  let w1 := snd (get_or_create_store Fake.service None (lit "X") w) in
  let w2 := with_event w1 (EPrint (MsgStoreHint (store_name_of store_X))) in
  let run := ingest_pdfs Fake.service 5 (lit "empty") None (lit "X") w in
  (glob_pdf (lit "empty") w = [] ->
     run = (Ok None, with_event w2 (EPrint (MsgNoPdfs (lit "empty"))))
     /\ uploads_of (new_events w1 (snd run)) = []
     /\ imports_of (new_events w1 (snd run)) = [])
  /\ (glob_pdf (lit "empty") w <> [] ->
      forall w3,
        ingest_pdfs_loop Fake.service 5 store_X 1 (glob_pdf (lit "empty") w) w2
        = (Ok tt, w3) ->
        run = (Ok (Some (store_name_of store_X)), w3)).
Proof.
  intros w w1 w2.
  apply (C2_ingest_results Fake.service 5 (lit "empty") None (lit "X")
           w w1 store_X).
  - reflexivity.
  - vm_compute. reflexivity.
Defined.

(** With two PDFs in the folder and a healthy service, the name of the new
    store comes back. *)
Example ingest_pdfs_returns_store_sample :
  fst (ingest_pdfs Fake.service 5 (lit "books") None (lit "X") healthy)
  = Ok (Some (lit "fileSearchStores/X")).
Proof. vm_compute. reflexivity. Qed.

(** ** Query engine *)

(** What [ask_question] sends: one generation request once the credential
    is there, nothing otherwise. *)
Lemma ask_question_trace {S} (svc : Service S) (question store_name : str)
    (source_type : option str) (w : World S) :
  new_events w (snd (ask_question svc question store_name source_type w)) =
  if opt_truthy (env_api_key w)
  then [EGenerate (file_search_request question store_name source_type)]
  else [].
Proof.
  unfold ask_question, bind, get_client.
  destruct (opt_truthy (env_api_key w)); simpl.
  - unfold call.
    destruct (generate_content svc _ (remote w)) as [[response|e] s1]; simpl.
    + assert (Hnew : forall r : result (str * list Citation) * World S,
                 snd r = with_remote w s1
                           (EGenerate (file_search_request question store_name
                                         source_type)) ->
                 new_events w (snd r) =
                 [EGenerate (file_search_request question store_name
                               source_type)]).
      { intros r ->. now apply new_events_app. }
      apply Hnew.
      destruct (candidates response) as [|candidate rest]; [reflexivity|].
      destruct (grounding_metadata candidate) as [gm|]; [|reflexivity].
      destruct (grounding_chunks gm); reflexivity.
    + now apply new_events_app.
  - apply new_events_app. now rewrite app_nil_r.
Qed.

(** C6: asking with no source type sends a request whose metadata filter
    is absent, and asking with the source type [book] sends a request
    whose metadata filter is exactly [source_type="book"]; the request
    names the one store that was asked.  [build_metadata_filter] of
    query.py gives the same two values. *)
Theorem C6_ask_metadata_filter {S} (svc : Service S)
    (question store_name : str) (w : World S) :
  let sent source_type :=
    requests_of
      (new_events w (snd (ask_question svc question store_name source_type w))) in
  let book_filter := lit "source_type=" ++ [DQUOTE] ++ lit "book" ++ [DQUOTE] in
  build_metadata_filter None = None
  /\ build_metadata_filter (Some (lit "book")) = Some book_filter
  /\ Forall (fun req =>
               tools req = [ {| file_search_store_names := [store_name];
                                metadata_filter := None |} ])
            (sent None)
  /\ Forall (fun req =>
               tools req = [ {| file_search_store_names := [store_name];
                                metadata_filter := Some book_filter |} ])
            (sent (Some (lit "book")))
  /\ length (sent None) = (if opt_truthy (env_api_key w) then 1 else 0)
  /\ length (sent (Some (lit "book")))
     = (if opt_truthy (env_api_key w) then 1 else 0).
Proof.
  intros sent book_filter. unfold sent.
  rewrite !ask_question_trace.
  destruct (opt_truthy (env_api_key w)); simpl;
    repeat split; repeat constructor.
Qed.

(** With the credential set, the one request of each kind is sent. *)
Example ask_question_sample :
  requests_of
    (trace (snd (ask_question Fake.service (lit "Why?") (lit "stores/1")
                   (Some (lit "book")) healthy)))
  = [ {| model := lit "gemini-2.5-flash";
         contents := lit "Why?";
         tools := [ {| file_search_store_names := [lit "stores/1"];
                       metadata_filter :=
                         Some (lit "source_type=" ++ [DQUOTE] ++ lit "book"
                               ++ [DQUOTE]) |} ] |} ].
Proof. vm_compute. reflexivity. Qed.

(** C10: an empty source type is the same as none: [build_metadata_filter]
    gives [None] for both, and [ask_question] and [suggest_questions] run
    alike on both, their request carrying no metadata filter. *)
Theorem C10_empty_source_type_is_no_filter {S} (svc : Service S)
    (question store_name : str) (count : Z) (w : World S) :
  build_metadata_filter (Some []) = None
  /\ build_metadata_filter None = None
  /\ ask_question svc question store_name (Some []) w
     = ask_question svc question store_name None w
  /\ suggest_questions svc store_name (Some []) count w
     = suggest_questions svc store_name None count w
  /\ map metadata_filter
       (tools (file_search_request question store_name (Some [])))
     = [None].
Proof. repeat split; reflexivity. Qed.

(** The citations of an answer: a chunk without retrieved context is
    skipped, a missing title becomes [Unknown Source], and the snippet has
    its newline replaced. *)
Example ask_question_citations_sample :
  fst (ask_question Fake.service (lit "Why?") (lit "stores/1") None answering)
  = Ok (lit "An answer.",
        [ {| title := lit "Unknown Source";
             text := lit "first line " ++ repeat (chr 97) 39 |} ]).
Proof. vm_compute. reflexivity. Qed.

(* ================================================================== *)
(** * Further properties of the code                                    *)
(* ================================================================== *)

(** ** History of questions (app.py, push_history) *)

Lemma firstn_app_firstn {A} (n : nat) (a b : list A) :
  firstn n (a ++ firstn n b) = firstn n (a ++ b).
Proof.
  rewrite !firstn_app, firstn_firstn.
  now replace (Nat.min (n - length a) n) with (n - length a) by lia.
Qed.

Lemma push_all_from (asked : list (str * str)) (history : list HistoryEntry) :
  length history <= 5 ->
  push_all asked history =
  firstn 5 (rev (map (fun qa => history_entry (fst qa) (snd qa)) asked)
            ++ history).
Proof.
  revert history. induction asked as [|qa asked IH]; intros history Hlen.
  - unfold push_all. cbn [fold_left map rev app]. symmetry.
    now apply firstn_all2.
  - unfold push_all in *. cbn [fold_left map rev]. rewrite IH.
    + unfold push_history.
      change ([history_entry (fst qa) (snd qa)] ++ firstn 4 history)
        with (firstn 5 (history_entry (fst qa) (snd qa) :: history)).
      rewrite firstn_app_firstn, <- app_assoc. reflexivity.
    + unfold push_history. cbn [app length]. rewrite length_firstn. lia.
Qed.

(** X1: starting from the empty history of a new session, after any
    number of answered questions the history holds the five most recent
    ones (all of them when fewer), the newest first. *)
Theorem X1_history_keeps_five_most_recent (asked : list (str * str)) :
  push_all asked [] =
  firstn 5 (rev (map (fun qa => history_entry (fst qa) (snd qa)) asked))
  /\ length (push_all asked []) = Nat.min 5 (length asked).
Proof.
  assert (H : push_all asked [] =
              firstn 5 (rev (map (fun qa => history_entry (fst qa) (snd qa))
                               asked))).
  { rewrite push_all_from by (cbn [length]; lia). now rewrite app_nil_r. }
  split; [exact H|].
  rewrite H, length_firstn, length_rev, length_map. reflexivity.
Qed.

(** X2: one push puts the new entry first, keeps the first four older
    entries in their order and drops the rest; the answer it stores is the
    answer itself when that has at most 300 characters, and otherwise its
    first 300 characters followed by three dots. *)
Theorem X2_push_history_entry (question answer : str)
    (history : list HistoryEntry) :
  let stored := push_history question answer history in
  (exists entry, stored = entry :: firstn 4 history
                 /\ h_question entry = question
                 /\ length (h_answer entry) <= 303
                 /\ firstn 300 (h_answer entry) = firstn 300 answer
                 /\ (length answer <= 300 -> h_answer entry = answer)
                 /\ (300 < length answer ->
                     h_answer entry = firstn 300 answer ++ lit "..."))
  /\ length stored <= 5.
Proof.
  intros stored. split.
  - exists (history_entry question answer).
    split; [reflexivity|]. split; [reflexivity|].
    unfold history_entry, prefix. cbn [h_answer].
    destruct (300 <? length answer) eqn:E.
    + apply Nat.ltb_lt in E.
      assert (Hcut : length (firstn 300 answer) = 300)
        by (rewrite length_firstn; lia).
      split; [|split; [|split]].
      * rewrite length_app, Hcut. change (length (lit "...")) with 3. lia.
      * rewrite firstn_app, Hcut, Nat.sub_diag, firstn_firstn.
        change (Nat.min 300 300) with 300. rewrite firstn_O.
        now rewrite app_nil_r.
      * intros H. lia.
      * intros _. reflexivity.
    + apply Nat.ltb_ge in E. rewrite app_nil_r.
      split; [|split; [|split]].
      * rewrite length_firstn. lia.
      * rewrite firstn_firstn. reflexivity.
      * intros _. now apply firstn_all2.
      * intros H. lia.
  - unfold stored, push_history. cbn [app length]. rewrite length_firstn. lia.
Qed.

(** ** Resource names (ingest_pdfs.py, file_resource_name) *)

Lemma file_resource_name_suffix (hex value : str) :
  is_uuid_hex hex ->
  firstn 8 (rev (file_resource_name_with hex value)) = rev (prefix 8 hex)
  /\ nth_error (rev (file_resource_name_with hex value)) 8 = Some HYPHEN.
Proof.
  intros Hhex.
  destruct (file_resource_name_shape hex value Hhex)
    as [base [Hname [_ [_ H8]]]].
  rewrite Hname, !rev_app_distr, <- app_assoc.
  assert (Hr : length (rev (prefix 8 hex)) = 8) by now rewrite length_rev.
  split.
  - rewrite firstn_app, Hr, Nat.sub_diag, firstn_O.
    rewrite app_nil_r. apply firstn_all2. lia.
  - rewrite nth_error_app2 by lia. rewrite Hr. reflexivity.
Qed.

(** X3: a resource name always ends with a hyphen and the first eight
    digits of the uuid it drew, whatever the length of the title; so two
    names whose uuids differ in their first eight digits are different,
    even for the same title. *)
Theorem X3_names_differ_with_suffix (hex1 hex2 value1 value2 : str) :
  is_uuid_hex hex1 ->
  is_uuid_hex hex2 ->
  prefix 8 hex1 <> prefix 8 hex2 ->
  file_resource_name_with hex1 value1 <> file_resource_name_with hex2 value2
  /\ (exists base, file_resource_name_with hex1 value1
                   = base ++ [HYPHEN] ++ prefix 8 hex1
                   /\ 1 <= length base <= 31).
Proof.
  intros H1 H2 Hdiff. split.
  - intros Heq.
    destruct (file_resource_name_suffix hex1 value1 H1) as [E1 _].
    destruct (file_resource_name_suffix hex2 value2 H2) as [E2 _].
    rewrite Heq, E2 in E1. apply Hdiff.
    apply (f_equal (@rev ascii)) in E1.
    rewrite !rev_involutive in E1. now symmetry.
  - destruct (file_resource_name_shape hex1 value1 H1)
      as [base [Hname [Hbase [Hne _]]]].
    exists base. split; [exact Hname|]. split.
    + destruct base; [congruence|simpl; lia].
    + rewrite Hbase. apply prefix_length_le.
Qed.

Lemma X3_names_differ_with_suffix_witness :
  file_resource_name_with Fake.HEX (lit "jung")
  <> file_resource_name_with (lit "fedcba9876543210fedcba9876543210") (lit "jung")
  /\ (exists base, file_resource_name_with Fake.HEX (lit "jung")
                   = base ++ [HYPHEN] ++ prefix 8 Fake.HEX
                   /\ 1 <= length base <= 31).
Proof.
  apply (X3_names_differ_with_suffix Fake.HEX
           (lit "fedcba9876543210fedcba9876543210") (lit "jung") (lit "jung")).
  - split; reflexivity.
  - split; reflexivity.
  - discriminate.
Defined.

(** X4: for a title of ASCII characters the name is made only of [a-z],
    [0-9] and hyphens, has at most 40 characters, neither begins nor ends
    with a hyphen, and has the base [file] when nothing of the title is
    left after normalising. *)
Theorem X4_ascii_title_gives_valid_name (hex value : str) :
  is_uuid_hex hex ->
  is_ascii value = true ->
  let name := file_resource_name_with hex value in
  forallb name_char name = true
  /\ length name <= 40
  /\ (exists c, first_char name = Some c /\ c <> HYPHEN)
  /\ (exists c, last_char name = Some c /\ c <> HYPHEN)
  /\ (normalized_title value = [] ->
      name = lit "file" ++ [HYPHEN] ++ prefix 8 hex).
Proof. intros Hhex Hascii. now apply file_resource_name_ascii. Qed.

Lemma X4_ascii_title_gives_valid_name_witness :
  let name := file_resource_name_with Fake.HEX (lit "!!!") in
  forallb name_char name = true
  /\ length name <= 40
  /\ (exists c, first_char name = Some c /\ c <> HYPHEN)
  /\ (exists c, last_char name = Some c /\ c <> HYPHEN)
  /\ (normalized_title (lit "!!!") = [] ->
      name = lit "file" ++ [HYPHEN] ++ prefix 8 Fake.HEX).
Proof.
  apply (X4_ascii_title_gives_valid_name Fake.HEX (lit "!!!")).
  - split; reflexivity.
  - reflexivity.
Defined.

(** X5: for every title, also one with letters beyond ASCII, the name has
    at most 40 characters, neither begins nor ends with a hyphen, and each
    of its characters is a hyphen or a character that [str.isalnum]
    accepts and [str.lower] leaves as it is. *)
Theorem X5_every_title_gives_bounded_name (hex value : str) :
  is_uuid_hex hex ->
  let name := file_resource_name_with hex value in
  length name <= 40
  /\ (exists c, first_char name = Some c /\ c <> HYPHEN)
  /\ (exists c, last_char name = Some c /\ c <> HYPHEN)
  /\ (forall c, In c name ->
      c = HYPHEN \/ (isalnum c = true /\ lower_char c = c)).
Proof.
  intros Hhex name.
  destruct (file_resource_name_general hex value Hhex)
    as [Hlen [Hfirst [Hlast [_ Hchars]]]].
  now repeat split.
Qed.

Lemma X5_every_title_gives_bounded_name_witness :
  let name :=
    file_resource_name_with Fake.HEX
      (lit "A very long title -- of a book, that has more than forty characters") in
  length name <= 40
  /\ (exists c, first_char name = Some c /\ c <> HYPHEN)
  /\ (exists c, last_char name = Some c /\ c <> HYPHEN)
  /\ (forall c, In c name ->
      c = HYPHEN \/ (isalnum c = true /\ lower_char c = c)).
Proof.
  apply (X5_every_title_gives_bounded_name Fake.HEX).
  split; reflexivity.
Defined.

(** ** Titles of the files of a folder (ingest_pdfs.py, ingest_pdfs) *)

Lemma str_eqb_eq (a b : str) : str_eqb a b = true <-> a = b.
Proof.
  revert b. induction a as [|x a IH]; intros [|y b]; simpl;
    try (split; [discriminate|discriminate]); [now split|].
  rewrite andb_true_iff, Ascii.eqb_eq, IH. split.
  - now intros [-> ->].
  - intros H. injection H as -> ->. now split.
Qed.

Lemma endswith_split (suffix s : str) :
  endswith suffix s = true -> exists t, s = t ++ suffix.
Proof.
  unfold endswith. intros H. apply andb_true_iff in H as [H _].
  apply str_eqb_eq in H.
  exists (firstn (length s - length suffix) s).
  symmetry.
  etransitivity; [|apply (firstn_skipn (length s - length suffix))].
  now rewrite H.
Qed.

Lemma rfind_absent (c : ascii) (s : str) : ~ In c s -> rfind c s = (-1)%Z.
Proof.
  induction s as [|x s IH]; simpl; [reflexivity|].
  intros H. rewrite IH by tauto. simpl.
  destruct (Ascii.eqb x c) eqn:E; [|reflexivity].
  apply Ascii.eqb_eq in E. subst. tauto.
Qed.

Lemma rfind_last (c : ascii) (a b : str) :
  ~ In c b -> rfind c (a ++ c :: b) = Z.of_nat (length a).
Proof.
  intros Hb. induction a as [|x a IH].
  - simpl. rewrite (rfind_absent c b Hb). simpl.
    now rewrite Ascii.eqb_refl.
  - cbn [app rfind length]. rewrite IH.
    destruct (0 <=? Z.of_nat (length a))%Z eqn:E; [lia|].
    apply Z.leb_gt in E. lia.
Qed.

Lemma stem_pdf (t : str) :
  stem (t ++ lit ".pdf") = match t with [] => lit ".pdf" | _ :: _ => t end.
Proof.
  unfold stem.
  change (t ++ lit ".pdf") with (t ++ chr 46 :: lit "pdf").
  rewrite rfind_last
    by (intros [H|[H|[H|[]]]]; discriminate H).
  rewrite length_app. change (length (chr 46 :: lit "pdf")) with 4.
  destruct t as [|x t].
  - reflexivity.
  - replace ((0 <? Z.of_nat (length (x :: t)))%Z
             && (Z.of_nat (length (x :: t))
                 <? Z.of_nat (length (x :: t) + 4) - 1)%Z)%bool
      with true.
    + rewrite Nat2Z.id. rewrite firstn_app, Nat.sub_diag, firstn_O, app_nil_r.
      apply firstn_all.
    + symmetry. apply andb_true_iff. split; apply Z.ltb_lt; simpl length; lia.
Qed.

(** X6: every file the batch takes from a folder has a name that ends in
    [.pdf], and its title is that name without the final [.pdf]; only a
    file named exactly [.pdf] keeps its whole name as title. *)
Theorem X6_title_is_name_without_extension {S} (folder : str)
    (w : World S) (p : Path) :
  In p (glob_pdf folder w) ->
  path_parent p = folder
  /\ In (path_name p) (listing w folder)
  /\ exists t,
       path_name p = t ++ lit ".pdf"
       /\ stem (path_name p) = match t with [] => lit ".pdf" | _ :: _ => t end.
Proof.
  unfold glob_pdf. intros H.
  apply in_map_iff in H as [n [<- Hn]].
  apply filter_In in Hn as [Hin Hend]. simpl.
  split; [reflexivity|]. split; [exact Hin|].
  destruct (endswith_split _ _ Hend) as [t ->].
  exists t. split; [reflexivity|apply stem_pdf].
Qed.

Lemma X6_title_is_name_without_extension_witness :
  path_parent jung_pdf = lit "books"
  /\ In (path_name jung_pdf) (listing healthy (lit "books"))
  /\ exists t,
       path_name jung_pdf = t ++ lit ".pdf"
       /\ stem (path_name jung_pdf)
          = match t with [] => lit ".pdf" | _ :: _ => t end.
Proof.
  apply (X6_title_is_name_without_extension (lit "books") healthy jung_pdf).
  vm_compute. now left.
Defined.

(** ** Suggested questions (app.py, suggest_questions) *)

Lemma slice_to_incl {A} (n : Z) (l : list A) (x : A) :
  In x (slice_to n l) -> In x l.
Proof.
  unfold slice_to. destruct (0 <=? n)%Z; intros H;
    match type of H with
    | In _ (firstn ?k _) =>
        rewrite <- (firstn_skipn k l); apply in_or_app; now left
    end.
Qed.

Lemma lstrip_by_no (p : ascii -> bool) (c : ascii) (s : str) :
  ~ In c s -> ~ In c (lstrip_by p s).
Proof.
  intros H Hin. apply H.
  destruct (lstrip_by_suffix p s) as [a [E _]]. rewrite E.
  apply in_or_app. now right.
Qed.

(** X7: for every count, also a negative one, each question that is
    returned is the trimmed form of a line of the response: it holds no
    line break, neither begins nor ends with a bullet character, a space or
    a tab, and has more than 10 characters. *)
Theorem X7_suggestions_are_trimmed_lines (text : str) (count : Z) :
  Forall (fun q =>
            In q (map (strip_chars BULLET_CHARS) (split_on NEWLINE text))
            /\ ~ In NEWLINE q
            /\ 10 < length q
            /\ (forall c, first_char q = Some c \/ last_char q = Some c ->
                          mem_char BULLET_CHARS c = false))
         (parse_suggestions text count).
Proof.
  apply Forall_forall. intros q Hq.
  unfold parse_suggestions in Hq. apply slice_to_incl in Hq.
  apply filter_In in Hq as [Hq Hlong].
  apply in_map_iff in Hq as [l [<- Hl]].
  apply filter_In in Hl as [Hl _].
  split; [now apply in_map|].
  split; [|split].
  - intros Hin. apply strip_by_incl in Hin.
    destruct (split_on_spec NEWLINE text) as [_ Hno].
    rewrite Forall_forall in Hno. now apply (Hno l).
  - now apply Nat.ltb_lt.
  - intros c [H|H].
    + now apply (proj1 (proj2 (strip_by_spec _ l))).
    + now apply (proj2 (proj2 (strip_by_spec _ l))).
Qed.

(** X8: the count only cuts the list of the questions that survive the
    filter: a count of at least the number of lines returns them all, a
    count of zero returns none, and a negative count [-k] returns all but
    the last [k] of them. *)
Theorem X8_count_cuts_the_surviving_questions (text : str) (count : Z) :
  let every :=
    parse_suggestions text (Z.of_nat (length (split_on NEWLINE text))) in
  parse_suggestions text count =
  firstn (if (0 <=? count)%Z then Z.to_nat count
          else length every - Z.to_nat (- count)) every
  /\ parse_suggestions text 0 = []
  /\ every = filter (fun q => 10 <? length q)
               (map (strip_chars BULLET_CHARS)
                  (filter (fun q => truthy (strip q))
                     (split_on NEWLINE text))).
Proof.
  intros every.
  set (kept := filter (fun q => 10 <? length q)
                 (map (strip_chars BULLET_CHARS)
                    (filter (fun q => truthy (strip q))
                       (split_on NEWLINE text)))).
  assert (Hevery : every = kept).
  { unfold every, parse_suggestions. fold kept.
    rewrite slice_to_nonneg by lia. rewrite Nat2Z.id.
    apply firstn_all2. unfold kept.
    eapply Nat.le_trans; [apply filter_length_le|].
    rewrite length_map. apply filter_length_le. }
  split; [|split; [|exact Hevery]].
  - rewrite Hevery. unfold parse_suggestions. fold kept.
    unfold slice_to. destruct (0 <=? count)%Z; reflexivity.
  - unfold parse_suggestions. now rewrite slice_to_nonneg by lia.
Qed.

(** ** Citations (app.py, ask_question; query.py, main) *)

(** X9: the citations of a response are those of its chunks that have a
    retrieved context, in the order of the chunks; none has an empty title,
    and the text of each has at most 403 characters. *)
Theorem X9_citations_of_chunks (chunks : list GroundingChunk) :
  length (citations_of chunks) = length (filter has_context chunks)
  /\ length (citations_of chunks) <= length chunks
  /\ flat_map (fun chunk => match citation_of chunk with
                            | Some c => [c]
                            | None => []
                            end) chunks = citations_of chunks
  /\ Forall (fun c => title c <> [] /\ length (text c) <= 403)
            (citations_of chunks).
Proof.
  split; [|split; [|split]].
  - induction chunks as [|chunk rest IH]; simpl; [reflexivity|].
    unfold has_context, citation_of.
    destruct (retrieved_context chunk); simpl; now rewrite IH.
  - induction chunks as [|chunk rest IH]; simpl; [lia|].
    destruct (citation_of chunk); simpl; lia.
  - induction chunks as [|chunk rest IH]; simpl; [reflexivity|].
    destruct (citation_of chunk); simpl; now rewrite IH.
  - induction chunks as [|chunk rest IH]; simpl; [constructor|].
    unfold citation_of.
    destruct (retrieved_context chunk) as [ctx|]; [|exact IH].
    constructor; [|exact IH]. simpl. split.
    + destruct (ctx_title ctx) as [[|c t]|]; discriminate.
    + pose proof (app_snippet_length (ctx_text ctx)) as Hl.
      rewrite Hl. unfold SNIPPET_CAP.
      destruct (400 <? length (opt_or (ctx_text ctx) [])); lia.
Qed.

Lemma metadata_filters_agree (source_type : option str) :
  build_metadata_filter source_type = app_metadata_filter source_type.
Proof.
  unfold build_metadata_filter, app_metadata_filter.
  destruct (opt_truthy source_type); reflexivity.
Qed.

Lemma snippets_agree (ctx_text : option str) :
  query_snippet ctx_text = app_snippet ctx_text.
Proof.
  unfold app_snippet, query_snippet.
  rewrite replace_char_length, replace_char_prefix. reflexivity.
Qed.

Lemma print_citations_cited (i : nat) (chunks : list GroundingChunk) :
  flat_map cited (print_citations i chunks)
  = map (fun c => (title c, text c)) (citations_of chunks).
Proof.
  revert i. induction chunks as [|chunk rest IH]; intros i; simpl;
    [reflexivity|].
  unfold citation_of.
  destruct (retrieved_context chunk) as [ctx|]; simpl.
  - now rewrite IH, snippets_agree.
  - apply IH.
Qed.

(** X10: the command line of query.py and [ask_question] of app.py do
    the same to the outside for the same question, store and source type:
    no call without the credential, and otherwise the one identical
    generation request, whatever the answer. *)
Theorem X10_cli_and_app_send_the_same_request {S} (svc : Service S)
    (question store_name : str) (source_type : option str) (w : World S) :
  snd (query_main svc question store_name source_type w)
  = snd (ask_question svc question store_name source_type w).
Proof.
  unfold query_main, ask_question, bind, file_search_request, GEMINI_MODEL.
  rewrite metadata_filters_agree.
  destruct (get_client w) as [[[]|e|] w0]; try reflexivity.
  destruct (call _ _ w0) as [[response|e|] w1]; try reflexivity.
  destruct (candidates response) as [|candidate rest]; [reflexivity|].
  destruct (grounding_metadata candidate) as [gm|]; [|reflexivity].
  destruct (grounding_chunks gm) as [[|chunk chunks]|]; reflexivity.
Qed.

(** X11: whenever [ask_question] returns, the command line of query.py
    ends normally too, in the same world, and the titles and snippets it
    prints are those of the citations [ask_question] returns, in the same
    order. *)
Theorem X11_cli_prints_the_citations_of_the_app {S} (svc : Service S)
    (question store_name : str) (source_type : option str) (w w' : World S)
    (answer : str) (citations : list Citation) :
  ask_question svc question store_name source_type w
  = (Ok (answer, citations), w') ->
  exists response_text printed,
    query_main svc question store_name source_type w
    = (Ok tt, LineAnswer response_text :: printed, w')
    /\ answer = opt_or response_text []
    /\ flat_map cited printed = map (fun c => (title c, text c)) citations.
Proof.
  unfold query_main, ask_question, bind, file_search_request, GEMINI_MODEL.
  rewrite metadata_filters_agree.
  destruct (get_client w) as [[[]|e|] w0]; try discriminate.
  destruct (call _ _ w0) as [[response|e|] w1]; try discriminate.
  destruct (candidates response) as [|candidate rest]; [discriminate|].
  destruct (grounding_metadata candidate) as [gm|].
  - destruct (grounding_chunks gm) as [[|chunk chunks]|]; try discriminate;
      unfold ret; intros H; injection H as <- <- <-.
    + exists (response_text response), [LineNoCitations]. now repeat split.
    + exists (response_text response),
        ([LineCitationsHeader] ++ print_citations 1 (chunk :: chunks)).
      split; [reflexivity|]. split; [reflexivity|].
      rewrite flat_map_app. simpl flat_map at 1.
      apply print_citations_cited.
  - unfold ret. intros H. injection H as <- <- <-.
    exists (response_text response), [LineNoCitations]. now repeat split.
Qed.

Lemma X11_cli_prints_the_citations_of_the_app_witness :
  exists response_text printed,
    query_main Fake.service (lit "Why?") (lit "stores/1") None answering
    = (Ok tt, LineAnswer response_text :: printed,
       snd (ask_question Fake.service (lit "Why?") (lit "stores/1") None
              answering))
    /\ lit "An answer." = opt_or response_text []
    /\ flat_map cited printed
       = map (fun c => (title c, text c))
           [ {| title := lit "Unknown Source";
                text := lit "first line " ++ repeat (chr 97) 39 |} ].
Proof.
  apply (X11_cli_prints_the_citations_of_the_app Fake.service (lit "Why?")
           (lit "stores/1") None answering).
  vm_compute. reflexivity.
Defined.

(** X12: the number query.py prints with a citation is the position of
    its chunk in the response, counted from 1 over all the chunks, so a
    chunk that is skipped leaves a gap in the numbers. *)
Theorem X12_citation_numbers_are_chunk_positions (i n : nat)
    (chunks : list GroundingChunk) (t s : str) :
  In (LineCitation n t s) (print_citations i chunks) ->
  i <= n
  /\ exists chunk ctx,
       nth_error chunks (n - i) = Some chunk
       /\ retrieved_context chunk = Some ctx
       /\ t = opt_or (ctx_title ctx) (lit "Unknown Source")
       /\ s = query_snippet (ctx_text ctx).
Proof.
  revert i. induction chunks as [|chunk rest IH]; intros i; simpl; [intros []|].
  assert (Hrest : In (LineCitation n t s) (print_citations (Datatypes.S i) rest) ->
                  i <= n
                  /\ exists chunk0 ctx,
                       nth_error (chunk :: rest) (n - i) = Some chunk0
                       /\ retrieved_context chunk0 = Some ctx
                       /\ t = opt_or (ctx_title ctx) (lit "Unknown Source")
                       /\ s = query_snippet (ctx_text ctx)).
  { intros H. destruct (IH _ H) as [Hle [c [ctx [Hn Hc]]]].
    split; [lia|]. exists c, ctx. split; [|exact Hc].
    replace (n - i) with (Datatypes.S (n - Datatypes.S i)) by lia.
    exact Hn. }
  destruct (retrieved_context chunk) as [ctx|] eqn:Hctx; [|exact Hrest].
  intros [H|H]; [|now apply Hrest].
  injection H as <- <- <-. split; [lia|].
  exists chunk, ctx. rewrite Nat.sub_diag. now repeat split.
Qed.

Lemma X12_citation_numbers_are_chunk_positions_witness :
  1 <= 2
  /\ exists chunk ctx,
       nth_error
         [ {| retrieved_context := None |};
           {| retrieved_context :=
                Some {| ctx_title := Some (lit "Jung"); ctx_text := None |} |} ]
         (2 - 1) = Some chunk
       /\ retrieved_context chunk = Some ctx
       /\ lit "Jung" = opt_or (ctx_title ctx) (lit "Unknown Source")
       /\ [] = query_snippet (ctx_text ctx).
Proof.
  apply (X12_citation_numbers_are_chunk_positions 1 2
           [ {| retrieved_context := None |};
             {| retrieved_context :=
                  Some {| ctx_title := Some (lit "Jung"); ctx_text := None |} |} ]
           (lit "Jung") []).
  vm_compute. now left.
Defined.

(** X13: when the first candidate of the answer has grounding metadata
    whose list of chunks is [None], [ask_question] of app.py raises a
    [TypeError] (it iterates over [None]), while query.py, which tests the
    list first, prints that there are no citations and ends normally. *)
Theorem X13_missing_chunk_list_breaks_the_app_only {S} (svc : Service S)
    (question store_name : str) (source_type : option str) (w : World S)
    (response : Response) (s1 : S) (candidate : Candidate)
    (rest : list Candidate) (gm : GroundingMetadata) :
  opt_truthy (env_api_key w) = true ->
  generate_content svc (file_search_request question store_name source_type)
    (remote w) = (Reply response, s1) ->
  candidates response = candidate :: rest ->
  grounding_metadata candidate = Some gm ->
  grounding_chunks gm = None ->
  fst (ask_question svc question store_name source_type w) = Raise TypeError
  /\ fst (query_main svc question store_name source_type w)
     = (Ok tt, [LineAnswer (response_text response); LineNoCitations]).
Proof.
  intros Hkey Hgen Hcands Hgm Hchunks.
  unfold query_main, ask_question, bind.
  rewrite (get_client_ok w Hkey).
  assert (Hreq : {| model := lit "gemini-2.5-flash"; contents := question;
                    tools := [ {| file_search_store_names := [store_name];
                                  metadata_filter :=
                                    build_metadata_filter source_type |} ] |}
                 = file_search_request question store_name source_type).
  { unfold file_search_request, GEMINI_MODEL.
    now rewrite metadata_filters_agree. }
  rewrite Hreq. unfold call. rewrite Hgen, Hcands, Hgm, Hchunks.
  split; reflexivity.
Qed.

Lemma X13_missing_chunk_list_breaks_the_app_only_witness :
  fst (ask_question Fake.service (lit "Why?") (lit "stores/1") None chunkless)
  = Raise TypeError
  /\ fst (query_main Fake.service (lit "Why?") (lit "stores/1") None chunkless)
     = (Ok tt, [LineAnswer (response_text chunkless_answer); LineNoCitations]).
Proof.
  apply (X13_missing_chunk_list_breaks_the_app_only Fake.service (lit "Why?")
           (lit "stores/1") None chunkless chunkless_answer
           (remote chunkless)
           {| grounding_metadata := Some {| grounding_chunks := None |} |}
           [] {| grounding_chunks := None |});
    reflexivity.
Defined.

(** ** Credential and store (get_client, get_or_create_store) *)

Lemma get_client_missing {S} (w : World S) :
  opt_truthy (env_api_key w) = false -> get_client w = (Raise NO_KEY, w).
Proof. unfold get_client. now intros ->. Qed.

(** [ingest_pdfs], outcome by outcome of its first two steps. *)
Lemma ingest_pdfs_cases {S} (svc : Service S) (fuel : nat) (folder : str)
    (store_name : option str) (display_name : str) (w : World S) :
  ingest_pdfs svc fuel folder store_name display_name w =
  if opt_truthy (env_api_key w) then
    match get_or_create_store svc store_name display_name w with
    | (Ok store, w1) =>
        let w2 := with_event w1 (EPrint (MsgStoreHint (store_name_of store))) in
        match glob_pdf folder w with
        | [] => (Ok None, with_event w2 (EPrint (MsgNoPdfs folder)))
        | _ :: _ =>
            match ingest_pdfs_loop svc fuel store 1 (glob_pdf folder w) w2 with
            | (Ok _, w3) => (Ok (Some (store_name_of store)), w3)
            | (Raise e, w3) => (Raise e, w3)
            | (Diverge, w3) => (Diverge, w3)
            end
        end
    | (Raise e, w1) => (Raise e, w1)
    | (Diverge, w1) => (Diverge, w1)
    end
  else (Raise NO_KEY, w).
Proof.
  destruct (opt_truthy (env_api_key w)) eqn:Hkey.
  - destruct (get_or_create_store svc store_name display_name w)
      as [[store|e|] w1] eqn:Hstore.
    + now apply ingest_pdfs_resolved.
    + unfold ingest_pdfs, bind. now rewrite (get_client_ok w Hkey), Hstore.
    + unfold ingest_pdfs, bind. now rewrite (get_client_ok w Hkey), Hstore.
  - unfold ingest_pdfs, bind. now rewrite (get_client_missing w Hkey).
Qed.

(** X14: without the credential ([GEMINI_API_KEY] unset or empty) no
    function reaches the service: ingestion, asking, the command line of
    query.py and the suggestions each raise the same [RuntimeError] and
    leave the world as it was.  [suggest_questions] tests the store name
    first, so with an empty store name it raises its [ValueError]
    instead. *)
Theorem X14_no_credential_no_call {S} (svc : Service S) (w : World S)
    (fuel : nat) (folder question store_name display_name : str)
    (store : option str) (source_type : option str) (count : Z) :
  opt_truthy (env_api_key w) = false ->
  ingest_pdfs svc fuel folder store display_name w = (Raise NO_KEY, w)
  /\ ask_question svc question store_name source_type w = (Raise NO_KEY, w)
  /\ query_main svc question store_name source_type w = (Raise NO_KEY, [], w)
  /\ suggest_questions svc store_name source_type count w
     = (if truthy store_name then Raise NO_KEY
        else Raise (ValueError
                      (lit "Store name is required to fetch suggestions.")),
        w).
Proof.
  intros Hkey. split; [|split; [|split]].
  - rewrite ingest_pdfs_cases. now rewrite Hkey.
  - unfold ask_question, bind. now rewrite (get_client_missing w Hkey).
  - unfold query_main. now rewrite (get_client_missing w Hkey).
  - unfold suggest_questions. destruct (truthy store_name); simpl.
    + unfold bind. now rewrite (get_client_missing w Hkey).
    + reflexivity.
Qed.

Lemma X14_no_credential_no_call_witness :
  ingest_pdfs Fake.service 5 (lit "books") None (lit "X") no_key
  = (Raise NO_KEY, no_key)
  /\ ask_question Fake.service (lit "Why?") (lit "stores/1") None no_key
     = (Raise NO_KEY, no_key)
  /\ query_main Fake.service (lit "Why?") (lit "stores/1") None no_key
     = (Raise NO_KEY, [], no_key)
  /\ suggest_questions Fake.service (lit "stores/1") None 3 no_key
     = (if truthy (lit "stores/1") then Raise NO_KEY
        else Raise (ValueError
                      (lit "Store name is required to fetch suggestions.")),
        no_key).
Proof.
  apply (X14_no_credential_no_call Fake.service no_key 5 (lit "books")
           (lit "Why?") (lit "stores/1") (lit "X") None None 3).
  reflexivity.
Defined.

Lemma store_calls_none (evs : list Event) :
  store_resolutions evs = 0 -> store_calls_of evs = [].
Proof.
  unfold store_resolutions, store_calls_of. intros H.
  now apply length_zero_iff_nil.
Qed.

Lemma store_calls_of_app (a b : list Event) :
  store_calls_of (a ++ b) = store_calls_of a ++ store_calls_of b.
Proof. unfold store_calls_of. apply filter_app. Qed.

(** The one call of [get_or_create_store]. *)
Lemma get_or_create_store_call {S} (svc : Service S)
    (store_name : option str) (display_name : str) (w : World S) :
  exists evs,
    extends w (snd (get_or_create_store svc store_name display_name w)) evs
    /\ store_calls_of evs =
       [ if opt_truthy store_name then EStoreGet (opt_or store_name [])
         else EStoreCreate display_name ]
    /\ imports_of evs = [] /\ uploads_of evs = [].
Proof.
  unfold get_or_create_store.
  destruct (opt_truthy store_name); unfold bind, print, emit, call, ret.
  - destruct (stores_get svc _ (remote w)) as [[store|e] s1]; simpl.
    + eexists. split; [eapply extends_trans; apply extends_event|].
      now repeat split.
    + eexists. split; [apply extends_event|]. now repeat split.
  - destruct (stores_create svc _ (remote w)) as [[store|e] s1]; simpl.
    + eexists. split; [eapply extends_trans; apply extends_event|].
      now repeat split.
    + eexists. split; [apply extends_event|]. now repeat split.
Qed.

(** X15: a run of [ingest_pdfs] resolves the store with exactly one call:
    a fetch of the given name when a non-empty store name is given, a
    creation with the display name otherwise (an empty store name counts as
    none).  It never does both, never repeats the call for the files of
    the batch, and makes no call at all without the credential. *)
Theorem X15_one_store_call_per_batch {S} (svc : Service S)
    (fuel : nat) (folder : str) (store_name : option str)
    (display_name : str) (w : World S) :
  store_calls_of
    (new_events w
       (snd (ingest_pdfs svc fuel folder store_name display_name w)))
  = if opt_truthy (env_api_key w) then
      [ if opt_truthy store_name then EStoreGet (opt_or store_name [])
        else EStoreCreate display_name ]
    else [].
Proof.
  rewrite ingest_pdfs_cases.
  destruct (opt_truthy (env_api_key w)).
  - destruct (get_or_create_store_call svc store_name display_name w)
      as [evs0 [Hext0 [Hcalls _]]].
    destruct (get_or_create_store svc store_name display_name w)
      as [[store|e|] w1]; simpl in Hext0.
    + set (hint := EPrint (MsgStoreHint (store_name_of store))).
      assert (Hext2 : extends w (with_event w1 hint) (evs0 ++ [hint]))
        by (eapply extends_trans; [exact Hext0|apply extends_event]).
      cbv zeta. fold hint.
      destruct (glob_pdf folder w) as [|p rest].
      * simpl snd.
        rewrite (new_events_app w _ ((evs0 ++ [hint]) ++ [EPrint (MsgNoPdfs folder)])).
        -- rewrite !store_calls_of_app, Hcalls. reflexivity.
        -- apply (extends_trans w _ _ _ _ Hext2), extends_event.
      * destruct (ingest_pdfs_loop_events svc fuel store (p :: rest) 1
                    (with_event w1 hint))
          as [evs [k [Hext [Hs _]]]].
        destruct (ingest_pdfs_loop svc fuel store 1 (p :: rest)
                    (with_event w1 hint)) as [r w3].
        simpl in Hext.
        assert (Hw3 : new_events w w3 = (evs0 ++ [hint]) ++ evs).
        { apply new_events_app.
          apply (extends_trans w _ _ _ _ Hext2 Hext). }
        assert (Hgoal : store_calls_of (new_events w w3)
                        = [if opt_truthy store_name
                           then EStoreGet (opt_or store_name [])
                           else EStoreCreate display_name]).
        { rewrite Hw3, !store_calls_of_app, Hcalls, (store_calls_none evs Hs).
          reflexivity. }
        destruct r as [[]|e|]; exact Hgoal.
    + simpl snd. rewrite (new_events_app w w1 evs0 (proj1 Hext0)).
      exact Hcalls.
    + simpl snd. rewrite (new_events_app w w1 evs0 (proj1 Hext0)).
      exact Hcalls.
  - simpl snd. rewrite (new_events_app w w []); [reflexivity|].
    now rewrite app_nil_r.
Qed.

(** X16: when the store that is named cannot be fetched, [ingest_pdfs]
    raises the exception of the service after that one call: no store is
    created in its place, and no file is uploaded or imported. *)
Theorem X16_unknown_store_stops_ingestion {S} (svc : Service S)
    (fuel : nat) (folder name display_name : str) (w : World S)
    (e : exn) (s1 : S) :
  opt_truthy (env_api_key w) = true ->
  truthy name = true ->
  stores_get svc name (remote w) = (Error e, s1) ->
  ingest_pdfs svc fuel folder (Some name) display_name w
  = (Raise e, with_remote w s1 (EStoreGet name)).
Proof.
  intros Hkey Hname Hget.
  assert (Hstore : get_or_create_store svc (Some name) display_name w
                   = (Raise e, with_remote w s1 (EStoreGet name))).
  { unfold get_or_create_store, opt_truthy, opt_or, str_or.
    rewrite Hname. unfold bind, call. now rewrite Hget. }
  rewrite ingest_pdfs_cases, Hkey, Hstore. reflexivity.
Qed.

Lemma X16_unknown_store_stops_ingestion_witness :
  ingest_pdfs Fake.service 5 (lit "books") (Some (lit "fileSearchStores/none"))
    (lit "X") healthy
  = (Raise (RemoteError (lit "NOT_FOUND")),
     with_remote healthy (remote healthy)
       (EStoreGet (lit "fileSearchStores/none"))).
Proof.
  apply (X16_unknown_store_stops_ingestion Fake.service 5 (lit "books")
           (lit "fileSearchStores/none") (lit "X") healthy
           (RemoteError (lit "NOT_FOUND")) (remote healthy));
    reflexivity.
Defined.

(** ** The polling loop (wait_for_operation) *)

Lemma wait_for_operation_polls {S} (svc : Service S) (fuel : nat)
    (op : Operation) (w : World S) :
  exists asked,
    trace (snd (wait_for_operation svc fuel op w))
    = trace w ++ flat_map (fun o => [ESleep 5; EOperationGet o]) asked
    /\ length asked <= fuel
    /\ Forall (fun o => op_done o = false) asked
    /\ (op_done op = true -> asked = []).
Proof.
  revert op w. induction fuel as [|fuel IH]; intros op w; simpl.
  - exists []. destruct (op_done op); simpl; rewrite app_nil_r;
      repeat split; auto; try (simpl; lia); constructor.
  - destruct (op_done op) eqn:Hd; simpl.
    + exists []. rewrite app_nil_r. repeat split; auto; try (simpl; lia); constructor.
    + unfold bind, sleep, emit, call. simpl.
      destruct (operations_get svc op (remote w)) as [[op'|e] s']; simpl.
      * destruct (IH op'
                    (with_remote (with_event w (ESleep 5)) s' (EOperationGet op)))
          as [asked [Ht [Hl [Hf _]]]].
        exists (op :: asked). rewrite Ht. simpl.
        rewrite <- !app_assoc. simpl.
        split; [reflexivity|]. split; [simpl; lia|].
        split; [now constructor|discriminate].
      * exists [op]. simpl. rewrite <- !app_assoc. simpl.
        split; [reflexivity|]. split; [simpl; lia|].
        split; [repeat constructor; exact Hd|discriminate].
Qed.

(** X17: [wait_for_operation] does nothing but sleep five seconds and
    then refresh the operation, turn after turn: each refresh is of an
    operation that is not done, the first of them the operation it was
    given, and an operation that is already done is returned at once,
    without a sleep and without a call. *)
Theorem X17_wait_sleeps_then_refreshes {S} (svc : Service S) (fuel : nat)
    (op : Operation) (w : World S) :
  exists asked,
    new_events w (snd (wait_for_operation svc fuel op w))
    = flat_map (fun o => [ESleep 5; EOperationGet o]) asked
    /\ length asked <= fuel
    /\ Forall (fun o => op_done o = false) asked
    /\ (forall first rest, asked = first :: rest -> first = op)
    /\ (op_done op = true ->
        asked = [] /\ wait_for_operation svc fuel op w = (Ok op, w)).
Proof.
  destruct (wait_for_operation_polls svc fuel op w)
    as [asked [Ht [Hl [Hf Hd]]]].
  exists asked. split; [now apply new_events_app|].
  split; [exact Hl|]. split; [exact Hf|]. split.
  - intros first rest ->.
    destruct fuel as [|fuel]; [simpl in Hl; lia|].
    simpl in Ht. destruct (op_done op) eqn:Hdone.
    + specialize (Hd eq_refl). discriminate.
    + simpl in Ht. unfold bind, sleep, emit, call in Ht. simpl in Ht.
      destruct (operations_get svc op (remote w)) as [[op'|e] s']; simpl in Ht.
      * destruct (wait_for_operation_polls svc fuel op'
                    (with_remote (with_event w (ESleep 5)) s' (EOperationGet op)))
          as [asked' [Ht' _]].
        rewrite Ht' in Ht. simpl in Ht. rewrite <- !app_assoc in Ht.
        apply app_inv_head in Ht. simpl in Ht. now injection Ht as <-.
      * rewrite <- !app_assoc in Ht. apply app_inv_head in Ht.
        simpl in Ht. now injection Ht as <-.
  - intros Hdone. split; [now apply Hd|].
    destruct fuel; simpl; now rewrite Hdone.
Qed.

(** X18: when the service reports the operation done, or refuses a
    refresh, within [n] refreshes, the loop ends within [n] turns: it
    returns or raises, and any longer patience gives the same outcome in
    the same world. *)
Theorem X18_wait_ends_when_the_service_settles {S} (svc : Service S)
    (n extra : nat) (op : Operation) (w : World S) :
  settles_within svc n op (remote w) ->
  fst (wait_for_operation svc n op w) <> Diverge
  /\ wait_for_operation svc (n + extra) op w = wait_for_operation svc n op w.
Proof.
  intros H.
  pose proof (wait_for_operation_ends svc n op w H) as Hends.
  split; [exact Hends|]. now apply wait_for_operation_fuel.
Qed.

Lemma X18_wait_ends_when_the_service_settles_witness :
  let s := Fake.set_imported (Fake.state0 2 [] None) [] 2 in
  let op := Fake.status s (lit "operations/1") 2 in
  fst (wait_for_operation Fake.service 2 op (Fake.world s)) <> Diverge
  /\ wait_for_operation Fake.service (2 + 7) op (Fake.world s)
     = wait_for_operation Fake.service 2 op (Fake.world s).
Proof.
  intros s op.
  apply (X18_wait_ends_when_the_service_settles Fake.service 2 7 op
           (Fake.world s)).
  right. right. left. reflexivity.
Defined.

(** ** Uploads of a batch (ingest_pdfs.py, ingest_pdfs) *)

Lemma uploads_of_app (a b : list Event) :
  uploads_of (a ++ b) = uploads_of a ++ uploads_of b.
Proof. unfold uploads_of. apply flat_map_app. Qed.

Lemma uploads_of_polls (asked : list Operation) :
  uploads_of (flat_map (fun o => [ESleep 5; EOperationGet o]) asked) = []
  /\ imports_of (flat_map (fun o => [ESleep 5; EOperationGet o]) asked) = [].
Proof. induction asked as [|o asked [IHu IHi]]; simpl; now split. Qed.

Lemma wait_for_operation_uuid {S} (svc : Service S) (fuel : nat)
    (op : Operation) (w : World S) :
  uuid_hex (snd (wait_for_operation svc fuel op w)) = uuid_hex w
  /\ uuid_drawn (snd (wait_for_operation svc fuel op w)) = uuid_drawn w.
Proof.
  revert op w. induction fuel as [|fuel IH]; intros op w; simpl.
  - destruct (op_done op); now split.
  - destruct (op_done op); simpl; [now split|].
    unfold bind, sleep, emit, call. simpl.
    destruct (operations_get svc op (remote w)) as [[op'|e] s']; simpl;
      [|now split].
    destruct (IH op' (with_remote (with_event w (ESleep 5)) s'
                        (EOperationGet op))) as [Hh Hd].
    now rewrite Hh, Hd.
Qed.

Lemma get_or_create_store_uuid {S} (svc : Service S)
    (store_name : option str) (display_name : str) (w : World S) :
  uuid_hex (snd (get_or_create_store svc store_name display_name w))
  = uuid_hex w
  /\ uuid_drawn (snd (get_or_create_store svc store_name display_name w))
     = uuid_drawn w.
Proof.
  unfold get_or_create_store.
  destruct (opt_truthy store_name); unfold bind, print, emit, call, ret.
  - destruct (stores_get svc _ (remote w)) as [[store|e] s1]; now split.
  - destruct (stores_create svc _ (remote w)) as [[store|e] s1]; now split.
Qed.

(** One turn of the loop draws one uuid and makes one upload, whatever
    comes of it, and at most one import. *)
Lemma ingest_pdfs_body_uploads {S} (svc : Service S) (fuel : nat)
    (store : FileSearchStore) (idx : nat) (p : Path) (w : World S) :
  let run := ingest_pdfs_body svc fuel store idx p w in
  exists evs,
    trace (snd run) = trace w ++ evs
    /\ uuid_hex (snd run) = uuid_hex w
    /\ uuid_drawn (snd run) = Datatypes.S (uuid_drawn w)
    /\ uploads_of evs =
       [ (p, file_resource_name_with (uuid_hex w (uuid_drawn w))
               (stem (path_name p)),
          stem (path_name p)) ]
    /\ length (imports_of evs) <= 1
    /\ (fst run = Ok tt -> length (imports_of evs) = 1).
Proof.
  intros run. unfold run. rewrite ingest_pdfs_body_unfold. cbv zeta.
  destruct (files_upload svc p _ _ (remote w)) as [[uf|e] s2].
  - destruct (stores_import_file svc _ _ _ s2) as [[op|e] s3].
    + match goal with
      | |- context [wait_for_operation svc fuel op ?w3] =>
          destruct (wait_for_operation_polls svc fuel op w3)
            as [asked [Ht _]];
          destruct (wait_for_operation_uuid svc fuel op w3) as [Hh Hd];
          destruct (wait_for_operation svc fuel op w3) as [[op'|e|] w4]
      end; simpl in Ht, Hh, Hd; simpl;
        destruct (uploads_of_polls asked) as [Hu Hi];
        rewrite Ht, Hh, Hd, <- !app_assoc; simpl;
        eexists; (split; [reflexivity|]);
        rewrite ?uploads_of_app, ?imports_of_app; simpl;
        rewrite ?uploads_of_app, ?imports_of_app, Hu, Hi; simpl;
        repeat split; auto; try discriminate.
    + simpl. rewrite <- !app_assoc. simpl. eexists.
      split; [reflexivity|]. simpl. repeat split; auto; try discriminate.
  - simpl. rewrite <- !app_assoc. simpl. eexists.
    split; [reflexivity|]. simpl. repeat split; auto; try discriminate.
Qed.

Lemma ingest_pdfs_loop_uploads {S} (svc : Service S) (fuel : nat)
    (store : FileSearchStore) (pdf_files : list Path) (idx : nat)
    (w : World S) :
  let run := ingest_pdfs_loop svc fuel store idx pdf_files w in
  exists evs k,
    trace (snd run) = trace w ++ evs
    /\ uuid_hex (snd run) = uuid_hex w
    /\ uuid_drawn (snd run) = uuid_drawn w + k
    /\ uploads_of evs =
       expected_uploads (uuid_hex w) (uuid_drawn w) (firstn k pdf_files)
    /\ k <= length pdf_files
    /\ length (imports_of evs) <= k <= length (imports_of evs) + 1
    /\ (fst run = Ok tt ->
        k = length pdf_files /\ length (imports_of evs) = length pdf_files).
Proof.
  revert idx w. induction pdf_files as [|p rest IH]; intros idx w.
  - exists [], 0. simpl. rewrite app_nil_r, Nat.add_0_r.
    repeat split; auto.
  - cbn [ingest_pdfs_loop]. unfold bind.
    destruct (ingest_pdfs_body_uploads svc fuel store idx p w)
      as [evs [Ht [Hh [Hd [Hu [Hi Hok]]]]]].
    destruct (ingest_pdfs_body svc fuel store idx p w) as [[[]|e|] w1];
      cbn [fst snd] in *.
    + destruct (IH (Datatypes.S idx) w1)
        as [evs' [k [Ht' [Hh' [Hd' [Hu' [Hk [Hi' Hok']]]]]]]].
      exists (evs ++ evs'), (Datatypes.S k).
      rewrite Ht', Ht, Hh', Hh, Hd', Hd, uploads_of_app, imports_of_app,
        length_app, Hu, Hu', Hh, Hd, (Hok eq_refl).
      cbn [firstn expected_uploads app length].
      split; [now rewrite app_assoc|]. split; [reflexivity|].
      split; [lia|]. split; [reflexivity|]. split; [lia|]. split; [lia|].
      intros H. destruct (Hok' H). lia.
    + exists evs, 1. rewrite Hu, Hd.
      cbn [firstn expected_uploads length].
      repeat split; auto; try lia; try discriminate.
    + exists evs, 1. rewrite Hu, Hd.
      cbn [firstn expected_uploads length].
      repeat split; auto; try lia; try discriminate.
Qed.

(** The uploads and imports of [ingest_pdfs], whatever its outcome. *)
Lemma ingest_pdfs_uploads {S} (svc : Service S) (fuel : nat)
    (folder : str) (store_name : option str) (display_name : str)
    (w : World S) :
  let run := ingest_pdfs svc fuel folder store_name display_name w in
  let sent := new_events w (snd run) in
  let pdf_files := glob_pdf folder w in
  exists k,
    uploads_of sent =
    expected_uploads (uuid_hex w) (uuid_drawn w) (firstn k pdf_files)
    /\ k <= length pdf_files
    /\ length (imports_of sent) <= k <= length (imports_of sent) + 1
    /\ (forall r, fst run = Ok r ->
        k = length pdf_files /\ length (imports_of sent) = length pdf_files).
Proof.
  intros run sent pdf_files. unfold sent, run.
  rewrite ingest_pdfs_cases.
  destruct (opt_truthy (env_api_key w)).
  - destruct (get_or_create_store_call svc store_name display_name w)
      as [evs0 [Hext0 [_ [Hi0 Hu0]]]].
    destruct (get_or_create_store_uuid svc store_name display_name w)
      as [Hh0 Hd0].
    destruct (get_or_create_store svc store_name display_name w)
      as [[store|e|] w1]; cbn [fst snd] in *.
    + set (hint := EPrint (MsgStoreHint (store_name_of store))).
      cbv zeta. fold hint. fold pdf_files.
      destruct pdf_files as [|p rest] eqn:Hfiles.
      * exists 0. cbn [snd fst].
        rewrite (new_events_app w _ ((evs0 ++ [hint]) ++ [EPrint (MsgNoPdfs folder)])).
        -- rewrite !uploads_of_app, !imports_of_app, Hu0, Hi0.
           unfold hint. simpl. repeat split; auto.
        -- destruct Hext0 as [Ht0 _]. simpl. rewrite Ht0.
           now rewrite <- !app_assoc.
      * destruct (ingest_pdfs_loop_uploads svc fuel store (p :: rest) 1
                    (with_event w1 hint))
          as [evs [k [Ht [Hh [Hd [Hu [Hk [Hi Hok]]]]]]]].
        destruct (ingest_pdfs_loop svc fuel store 1 (p :: rest)
                    (with_event w1 hint)) as [r w3].
        cbn [fst snd] in *.
        assert (Hw3 : new_events w w3 = (evs0 ++ [hint]) ++ evs).
        { apply new_events_app. rewrite Ht. destruct Hext0 as [Ht0 _].
          simpl. rewrite Ht0. now rewrite <- !app_assoc. }
        assert (Hgoal :
          uploads_of (new_events w w3) =
          expected_uploads (uuid_hex w) (uuid_drawn w) (firstn k (p :: rest))
          /\ k <= length (p :: rest)
          /\ length (imports_of (new_events w w3)) <= k
             <= length (imports_of (new_events w w3)) + 1).
        { rewrite Hw3, !uploads_of_app, !imports_of_app, Hu0, Hi0, Hu.
          simpl uuid_hex. simpl uuid_drawn. rewrite Hh0, Hd0.
          unfold hint. cbn [uploads_of imports_of flat_map app].
          repeat split; auto; lia. }
        destruct Hgoal as [G1 [G2 G3]].
        exists k. destruct r as [[]|e|]; cbn [fst snd];
          (split; [exact G1|]); (split; [exact G2|]); (split; [exact G3|]);
          intros r0 Hr; try discriminate.
        rewrite Hw3, !imports_of_app, Hi0.
        unfold hint. cbn [imports_of flat_map app]. now apply Hok.
    + exists 0. rewrite (new_events_app w w1 evs0 (proj1 Hext0)), Hu0, Hi0.
      simpl. repeat split; auto; try lia; intros; discriminate.
    + exists 0. rewrite (new_events_app w w1 evs0 (proj1 Hext0)), Hu0, Hi0.
      simpl. repeat split; auto; try lia; intros; discriminate.
  - exists 0. cbn [snd fst]. rewrite (new_events_app w w []).
    + simpl. repeat split; auto; try lia; intros; discriminate.
    + now rewrite app_nil_r.
Qed.

(** X19: [ingest_pdfs] takes the files of the folder in order and, for
    each, draws one uuid and uploads the file under the resource name made
    of its title and that uuid, with the title as display name.  An import
    is submitted only for a file that was uploaded, so there is at most one
    upload more than imports (the file at which the batch failed); when
    the batch returns there are exactly N uploads and N imports. *)
Theorem X19_uploads_of_a_batch {S} (svc : Service S) (fuel : nat)
    (folder : str) (store_name : option str) (display_name : str)
    (w : World S) :
  let run := ingest_pdfs svc fuel folder store_name display_name w in
  let sent := new_events w (snd run) in
  let pdf_files := glob_pdf folder w in
  exists k,
    uploads_of sent =
    expected_uploads (uuid_hex w) (uuid_drawn w) (firstn k pdf_files)
    /\ k <= length pdf_files
    /\ length (imports_of sent) <= k <= length (imports_of sent) + 1
    /\ (forall r, fst run = Ok r ->
        k = length pdf_files /\ length (imports_of sent) = length pdf_files).
Proof. apply ingest_pdfs_uploads. Qed.

Lemma names_differ (hex1 hex2 value1 value2 : str) :
  is_uuid_hex hex1 -> is_uuid_hex hex2 ->
  prefix 8 hex1 <> prefix 8 hex2 ->
  file_resource_name_with hex1 value1 <> file_resource_name_with hex2 value2.
Proof.
  intros H1 H2 Hdiff Heq.
  destruct (file_resource_name_suffix hex1 value1 H1) as [E1 _].
  destruct (file_resource_name_suffix hex2 value2 H2) as [E2 _].
  rewrite Heq, E2 in E1. apply Hdiff.
  apply (f_equal (@rev ascii)) in E1.
  rewrite !rev_involutive in E1. now symmetry.
Qed.

Lemma expected_uploads_names (hex : nat -> str) (n : nat) (files : list Path)
    (u : Path * str * str) :
  In u (expected_uploads hex n files) ->
  exists i value, n <= i < n + length files
                  /\ snd (fst u) = file_resource_name_with (hex i) value.
Proof.
  revert n. induction files as [|p rest IH]; intros n; simpl; [intros []|].
  intros [<-|H].
  - exists n, (stem (path_name p)). simpl. split; [lia|reflexivity].
  - destruct (IH _ H) as [i [v [Hi Hv]]]. exists i, v. split; [lia|exact Hv].
Qed.

Lemma expected_uploads_nodup (hex : nat -> str) (n : nat) (files : list Path) :
  (forall i, n <= i < n + length files -> is_uuid_hex (hex i)) ->
  (forall i j, n <= i < j -> j < n + length files ->
               prefix 8 (hex i) <> prefix 8 (hex j)) ->
  NoDup (map (fun u => snd (fst u)) (expected_uploads hex n files)).
Proof.
  revert n. induction files as [|p rest IH]; intros n Hhex Hdiff; simpl.
  - constructor.
  - constructor.
    + intros Hin. apply in_map_iff in Hin as [u [Hu Hin]].
      apply expected_uploads_names in Hin as [i [v [Hi Hv]]].
      rewrite Hv in Hu.
      revert Hu. apply not_eq_sym, names_differ.
      * apply Hhex. simpl. lia.
      * apply Hhex. simpl. lia.
      * apply Hdiff; simpl; lia.
    + apply IH.
      * intros i Hi. apply Hhex. simpl. lia.
      * intros i j Hi Hj. apply Hdiff; simpl; lia.
Qed.

(** X20: when the uuids drawn during a batch are well formed and differ
    from one another in their first eight digits, the resource names of
    the uploads of the batch are all different, also for files with the
    same title. *)
Theorem X20_names_of_a_batch_are_distinct {S} (svc : Service S)
    (fuel : nat) (folder : str) (store_name : option str)
    (display_name : str) (w : World S) :
  let last := uuid_drawn w + length (glob_pdf folder w) in
  (forall i, uuid_drawn w <= i < last -> is_uuid_hex (uuid_hex w i)) ->
  (forall i j, uuid_drawn w <= i < j -> j < last ->
               prefix 8 (uuid_hex w i) <> prefix 8 (uuid_hex w j)) ->
  NoDup (map (fun u => snd (fst u))
           (uploads_of
              (new_events w
                 (snd (ingest_pdfs svc fuel folder store_name display_name
                         w))))).
Proof.
  intros last Hhex Hdiff.
  destruct (ingest_pdfs_uploads svc fuel folder store_name display_name w)
    as [k [Hu [Hk _]]].
  rewrite Hu. apply expected_uploads_nodup.
  - intros i Hi. apply Hhex. unfold last.
    rewrite length_firstn in Hi. lia.
  - intros i j Hi Hj. apply Hdiff; [exact Hi|]. unfold last.
    rewrite length_firstn in Hj. lia.
Qed.

Lemma X20_names_of_a_batch_are_distinct_witness :
  length (glob_pdf (lit "twins") two_uuids) = 2
  /\ NoDup (map (fun u => snd (fst u))
              (uploads_of
                 (new_events two_uuids
                    (snd (ingest_pdfs Fake.service 5 (lit "twins") None
                            (lit "X") two_uuids))))).
Proof.
  split; [reflexivity|].
  apply (X20_names_of_a_batch_are_distinct Fake.service 5 (lit "twins") None
           (lit "X") two_uuids).
  - intros [|[|i]] Hi; [split; reflexivity|split; reflexivity|].
    change (uuid_drawn two_uuids + length (glob_pdf (lit "twins") two_uuids))
      with 2 in Hi. lia.
  - intros i j Hi Hj.
    change (uuid_drawn two_uuids + length (glob_pdf (lit "twins") two_uuids))
      with 2 in Hj.
    change (uuid_drawn two_uuids) with 0 in Hi.
    assert (i = 0 /\ j = 1) as [-> ->] by lia.
    discriminate.
Defined.

(** The two files [jung.pdf] and [Jung.pdf] have the same normalised
    title; their names differ by the uuid alone. *)
Example twin_titles_sample :
  map (fun u => snd (fst u))
    (uploads_of
       (trace (snd (ingest_pdfs Fake.service 5 (lit "twins") None (lit "X")
                      two_uuids))))
  = [lit "jung-01234567"; lit "jung-fedcba98"].
Proof. vm_compute. reflexivity. Qed.

(** ** Uploaded files (app.py, ingest_uploaded_pdfs) *)

Lemma str_eqb_refl (a : str) : str_eqb a a = true.
Proof. now apply str_eqb_eq. Qed.

Lemma with_listing_id {S} (w : World S) : with_listing w (listing w) = w.
Proof. destruct w. reflexivity. Qed.

Lemma insert_at_length {A} (k : nat) (x : A) (l : list A) :
  length (insert_at k x l) = Datatypes.S (length l).
Proof.
  unfold insert_at. rewrite length_app. cbn [length].
  rewrite length_firstn, length_skipn. lia.
Qed.

Lemma insert_at_in {A} (k : nat) (x y : A) (l : list A) :
  In y (insert_at k x l) -> y = x \/ In y l.
Proof.
  unfold insert_at. intros H. rewrite <- (firstn_skipn k l).
  apply in_app_or in H as [H|[H|H]].
  - right. apply in_or_app. now left.
  - left. now symmetry.
  - right. apply in_or_app. now right.
Qed.

(** Storing an entry changes one folder, by at most that entry. *)
Lemma store_entry_spec (os : FileSystem) (folder entry : str)
    (l : str -> list str) (d : str) :
  length (store_entry os folder entry l d) <= Datatypes.S (length (l d))
  /\ (forall n, In n (store_entry os folder entry l d) ->
                (n = entry /\ str_eqb d folder = true) \/ In n (l d))
  /\ (str_eqb d folder = false -> store_entry os folder entry l d = l d).
Proof.
  unfold store_entry. destruct (str_eqb d folder).
  - destruct (entry_exists os entry (l d)).
    + repeat split; auto; discriminate.
    + rewrite insert_at_length. split; [lia|]. split; [|discriminate].
      intros n H. apply insert_at_in in H as [->|H]; auto.
  - repeat split; auto.
Qed.

(** One write: it returns or raises, and changes the folder by at most
    one entry, the one its name designates there. *)
Lemma write_file_spec {S} (os : FileSystem) (folder name : str)
    (w : World S) :
  exists r l,
    write_file os folder name w = (r, with_listing w l)
    /\ r <> Diverge
    /\ length (l folder) <= Datatypes.S (length (listing w folder))
    /\ (forall n, In n (l folder) ->
          In n (listing w folder)
          \/ dest_of name = DestEntry n \/ dest_of name = DestOutside)
    /\ (stays_inside name = true ->
        forall d, str_eqb d folder = false -> l d = listing w d).
Proof.
  assert (Hsame : forall r : result unit,
            r <> Diverge ->
            exists r0 l,
              (r, w) = (r0, with_listing w l)
              /\ r0 <> Diverge
              /\ length (l folder) <= Datatypes.S (length (listing w folder))
              /\ (forall n, In n (l folder) ->
                    In n (listing w folder)
                    \/ dest_of name = DestEntry n \/ dest_of name = DestOutside)
              /\ (stays_inside name = true ->
                  forall d, str_eqb d folder = false -> l d = listing w d)).
  { intros r Hr. exists r, (listing w). rewrite with_listing_id.
    repeat split; auto. }
  unfold write_file.
  destruct (existsb (Ascii.eqb (chr 0)) name); [apply Hsame; discriminate|].
  destruct (dest_of name) as [entry|  |first| ] eqn:Hdest.
  - destruct (fs_refuses os (listing w) folder entry) as [e|];
      [apply Hsame; discriminate|].
    exists (Ok tt), (store_entry os folder entry (listing w)).
    destruct (store_entry_spec os folder entry (listing w) folder)
      as [Hlen [Hin _]].
    split; [reflexivity|]. split; [discriminate|]. split; [exact Hlen|].
    split.
    + intros n Hn. destruct (Hin n Hn) as [[-> _]|H]; auto.
    + intros _ d Hd.
      now apply (store_entry_spec os folder entry (listing w) d).
  - apply Hsame. discriminate.
  - destruct (entry_exists os first (listing w folder));
      apply Hsame; discriminate.
  - destruct (fs_outside os (listing w) folder name) as [e|dir entry];
      [apply Hsame; discriminate|].
    exists (Ok tt), (store_entry os dir entry (listing w)).
    destruct (store_entry_spec os dir entry (listing w) folder)
      as [Hlen [Hin _]].
    split; [reflexivity|]. split; [discriminate|]. split; [exact Hlen|].
    split.
    + intros n Hn. destruct (Hin n Hn) as [_|H]; auto.
    + unfold stays_inside. rewrite Hdest. discriminate.
Qed.

(** The writes of all the uploads: at most one entry for each file. *)
Lemma write_uploads_spec {S} (os : FileSystem) (folder : str)
    (files : list Upload) (w : World S) :
  exists r l,
    write_uploads os folder files w = (r, with_listing w l)
    /\ r <> Diverge
    /\ length (l folder) <= length (listing w folder) + length files
    /\ (forall n, In n (l folder) ->
          In n (listing w folder)
          \/ exists f, In f files
                       /\ (dest_of (upload_name f) = DestEntry n
                           \/ dest_of (upload_name f) = DestOutside))
    /\ (forallb (fun f => stays_inside (upload_name f)) files = true ->
        forall d, str_eqb d folder = false -> l d = listing w d).
Proof.
  revert w. induction files as [|file rest IH]; intros w.
  - exists (Ok tt), (listing w). rewrite with_listing_id.
    split; [reflexivity|]. split; [discriminate|].
    split; [simpl; lia|]. split; auto.
  - cbn [write_uploads]. unfold bind.
    destruct (write_file_spec os folder (upload_name file) w)
      as [r1 [l1 [Hrun1 [Hr1 [Hlen1 [Hin1 Hout1]]]]]].
    rewrite Hrun1. destruct r1 as [[]|e|]; [| |congruence].
    + destruct (IH (with_listing w l1))
        as [r [l [Hrun [Hr [Hlen [Hin Hout]]]]]].
      cbn [listing with_listing] in Hlen, Hin, Hout.
      exists r, l. split; [exact Hrun|]. split; [exact Hr|].
      split; [cbn [length]; lia|]. split.
      * intros n Hn. destruct (Hin n Hn) as [H|[f [Hf Hd]]].
        -- destruct (Hin1 n H) as [H'|H']; [now left|].
           right. exists file. split; [now left|exact H'].
        -- right. exists f. split; [now right|exact Hd].
      * intros Hall d Hd. cbn [forallb] in Hall.
        apply andb_true_iff in Hall as [Hfile Hrest].
        rewrite (Hout Hrest d Hd). now apply Hout1.
    + exists (Raise e), l1. split; [reflexivity|]. split; [discriminate|].
      split; [cbn [length]; lia|]. split.
      * intros n Hn. destruct (Hin1 n Hn) as [H'|H']; [now left|].
        right. exists file. split; [now left|exact H'].
      * intros Hall d Hd. cbn [forallb] in Hall.
        apply andb_true_iff in Hall as [Hfile _]. now apply Hout1.
Qed.

(** [ingest_pdfs] only adds to the trace: the folders and the environment
    are as they were, whatever the outcome. *)
Lemma ingest_pdfs_extends {S} (svc : Service S) (fuel : nat)
    (folder : str) (store_name : option str) (display_name : str)
    (w : World S) :
  exists evs,
    extends w (snd (ingest_pdfs svc fuel folder store_name display_name w))
      evs.
Proof.
  rewrite ingest_pdfs_cases.
  destruct (opt_truthy (env_api_key w)).
  - destruct (get_or_create_store_call svc store_name display_name w)
      as [evs0 [Hext0 _]].
    destruct (get_or_create_store svc store_name display_name w)
      as [[store|e|] w1]; cbn [fst snd] in *; [|eauto|eauto].
    cbv zeta. set (hint := EPrint (MsgStoreHint (store_name_of store))).
    assert (Hext2 : extends w (with_event w1 hint) (evs0 ++ [hint]))
      by (eapply extends_trans; [exact Hext0|apply extends_event]).
    destruct (glob_pdf folder w) as [|p rest].
    + eexists. cbn [snd].
      eapply extends_trans; [exact Hext2|apply extends_event].
    + destruct (ingest_pdfs_loop_events svc fuel store (p :: rest) 1
                  (with_event w1 hint)) as [evs [k [Hext _]]].
      destruct (ingest_pdfs_loop svc fuel store 1 (p :: rest)
                  (with_event w1 hint)) as [r w3].
      cbn [snd] in Hext. exists ((evs0 ++ [hint]) ++ evs).
      destruct r as [[]|e|]; cbn [snd];
        (eapply extends_trans; [exact Hext2|exact Hext]).
  - exists []. apply extends_refl.
Qed.

Lemma expected_uploads_length (hex : nat -> str) (n : nat)
    (files : list Path) :
  length (expected_uploads hex n files) = length files.
Proof.
  revert n. induction files as [|p rest IH]; intros n; simpl;
    [reflexivity|now rewrite IH].
Qed.

Lemma glob_pdf_length {S} (folder : str) (w : World S) :
  length (glob_pdf folder w) <= length (listing w folder).
Proof. unfold glob_pdf. rewrite length_map. apply filter_length_le. Qed.

Lemma filter_none {A} (f : A -> bool) (l : list A) :
  (forall x, In x l -> f x = false) -> filter f l = [].
Proof.
  induction l as [|x l IH]; intros H; simpl; [reflexivity|].
  rewrite (H x) by now left. apply IH. intros y Hy. apply H. now right.
Qed.

(** The run of [ingest_uploaded_pdfs] on at least one file, step by step:
    the writes into the new folder, then [ingest_pdfs] on that folder,
    then the removal of the folder. *)
Lemma ingest_uploaded_pdfs_steps {S} (svc : Service S) (os : FileSystem)
    (fuel : nat) (file : Upload) (files : list Upload)
    (store_name : option str) (display_name : str) (w : World S) :
  exists (r0 : result unit) (l : str -> list str),
    let tmpdir := tmp_dir w in
    let w1 := with_listing w l in
    ingest_uploaded_pdfs svc os fuel (file :: files) store_name display_name w
    = match r0 with
      | Ok _ =>
          match ingest_pdfs svc fuel tmpdir store_name display_name w1 with
          | (Ok resulting_store, w') =>
              (Ok (Z.of_nat (length (file :: files)), resulting_store),
               remove_dir tmpdir w')
          | (Raise e, w') => (Raise e, remove_dir tmpdir w')
          | (Diverge, w') => (Diverge, w')
          end
      | Raise e => (Raise e, remove_dir tmpdir w1)
      | Diverge => (Diverge, w1)
      end
    /\ r0 <> Diverge
    /\ length (l tmpdir) <= length (file :: files)
    /\ (forall n, In n (l tmpdir) ->
          exists f, In f (file :: files)
                    /\ (dest_of (upload_name f) = DestEntry n
                        \/ dest_of (upload_name f) = DestOutside))
    /\ (forallb (fun f => stays_inside (upload_name f)) (file :: files) = true ->
        forall d, str_eqb d tmpdir = false -> l d = listing w d).
Proof.
  destruct (write_uploads_spec os (tmp_dir w) (file :: files)
              (remove_dir (tmp_dir w) w))
    as [r0 [l [Hrun [Hr0 [Hlen [Hin Hout]]]]]].
  cbn [listing remove_dir with_listing] in Hlen, Hin, Hout.
  rewrite str_eqb_refl in Hlen, Hin.
  exists r0, l. cbv zeta. split; [|split; [exact Hr0|split; [|split]]].
  - unfold ingest_uploaded_pdfs. cbn [negb]. unfold bind. rewrite Hrun.
    destruct r0 as [[]|e|]; reflexivity.
  - simpl in Hlen. simpl. lia.
  - intros n Hn. destruct (Hin n Hn) as [[]|H]. exact H.
  - intros Hall d Hd. rewrite (Hout Hall d Hd). now rewrite Hd.
Qed.

(** X21: when [ingest_uploaded_pdfs] returns or raises, the temporary
    folder it filled is empty again and the environment is as it was; and
    when no uploaded name leaves the folder (none is absolute, none climbs
    out through [..]), every other folder is as it was too. *)
Theorem X21_temporary_folder_is_removed {S} (svc : Service S)
    (os : FileSystem) (fuel : nat) (files : list Upload)
    (store_name : option str) (display_name : str) (w : World S) :
  let run :=
    ingest_uploaded_pdfs svc os fuel files store_name display_name w in
  fst run <> Diverge ->
  (files <> [] -> listing (snd run) (tmp_dir w) = [])
  /\ env_api_key (snd run) = env_api_key w
  /\ (forallb (fun f => stays_inside (upload_name f)) files = true ->
      forall d, str_eqb d (tmp_dir w) = false ->
                listing (snd run) d = listing w d).
Proof.
  intros run. unfold run. destruct files as [|file files].
  - intros _. simpl. repeat split; auto. congruence.
  - destruct (ingest_uploaded_pdfs_steps svc os fuel file files store_name
                display_name w) as [r0 [l [Hrun [Hr0 [_ [_ Hout]]]]]].
    cbv zeta in Hrun, Hout. rewrite Hrun.
    destruct r0 as [[]|e|]; [| |congruence].
    + destruct (ingest_pdfs_extends svc fuel (tmp_dir w) store_name
                  display_name (with_listing w l)) as [evs [_ [Hl Hk]]].
      destruct (ingest_pdfs svc fuel (tmp_dir w) store_name display_name
                  (with_listing w l)) as [[r|e|] w'];
        cbn [fst snd] in *; intros Hnd; try (now contradiction Hnd);
        (split; [|split]);
        try (intros _; simpl; now rewrite str_eqb_refl);
        try (simpl; now rewrite Hk);
        intros Hall d Hd; simpl; rewrite Hd, Hl; simpl; now apply Hout.
    + cbn [fst snd]. intros _. split; [|split].
      * intros _. simpl. now rewrite str_eqb_refl.
      * reflexivity.
      * intros Hall d Hd. simpl. rewrite Hd. now apply Hout.
Qed.

Lemma X21_temporary_folder_is_removed_witness :
  let files := [ {| upload_name := lit "jung.pdf" |} ] in
  let run :=
    ingest_uploaded_pdfs Fake.service plain_os 5 files None (lit "X") healthy in
  (files <> [] -> listing (snd run) (tmp_dir healthy) = [])
  /\ env_api_key (snd run) = env_api_key healthy
  /\ (forallb (fun f => stays_inside (upload_name f)) files = true ->
      forall d, str_eqb d (tmp_dir healthy) = false ->
                listing (snd run) d = listing healthy d).
Proof.
  apply (X21_temporary_folder_is_removed Fake.service plain_os 5
           [ {| upload_name := lit "jung.pdf" |} ] None (lit "X") healthy).
  vm_compute. discriminate.
Defined.

(** A name that climbs out of the temporary folder: with a system that
    takes the write, the file lands in the folder above and is still there
    after the temporary folder is removed; it is not ingested. *)
Example escaping_name_sample :
  let run :=
    ingest_uploaded_pdfs Fake.service plain_os 5
      [ {| upload_name := lit "../x.pdf" |} ] None (lit "X") healthy in
  fst run = Ok (1%Z, None)
  /\ listing (snd run) (lit "/tmp") = [lit "x.pdf"]
  /\ listing (snd run) (tmp_dir healthy) = []
  /\ uploads_of (trace (snd run)) = [].
Proof. vm_compute. repeat split; reflexivity. Qed.

(** The trace of [ingest_uploaded_pdfs] is that of the [ingest_pdfs] it
    runs on the temporary folder, and empty when a write raises. *)
Lemma ingest_uploaded_pdfs_trace {S} (svc : Service S) (os : FileSystem)
    (fuel : nat) (file : Upload) (files : list Upload)
    (store_name : option str) (display_name : str) (w : World S)
    (r0 : result unit) (l : str -> list str) :
  ingest_uploaded_pdfs svc os fuel (file :: files) store_name display_name w
  = match r0 with
    | Ok _ =>
        match ingest_pdfs svc fuel (tmp_dir w) store_name display_name
                (with_listing w l) with
        | (Ok resulting_store, w') =>
            (Ok (Z.of_nat (length (file :: files)), resulting_store),
             remove_dir (tmp_dir w) w')
        | (Raise e, w') => (Raise e, remove_dir (tmp_dir w) w')
        | (Diverge, w') => (Diverge, w')
        end
    | Raise e => (Raise e, remove_dir (tmp_dir w) (with_listing w l))
    | Diverge => (Diverge, with_listing w l)
    end ->
  new_events w
    (snd (ingest_uploaded_pdfs svc os fuel (file :: files) store_name
            display_name w))
  = match r0 with
    | Ok _ =>
        new_events (with_listing w l)
          (snd (ingest_pdfs svc fuel (tmp_dir w) store_name display_name
                  (with_listing w l)))
    | _ => []
    end.
Proof.
  intros ->. destruct r0 as [[]|e|].
  - destruct (ingest_pdfs svc fuel (tmp_dir w) store_name display_name
                (with_listing w l)) as [[r|e|] w']; reflexivity.
  - cbn [snd]. apply new_events_app. simpl. now rewrite app_nil_r.
  - cbn [snd]. apply new_events_app. simpl. now rewrite app_nil_r.
Qed.

(** X22: the count that [ingest_uploaded_pdfs] reports is the number of
    files it was given, and the files really uploaded and imported are
    never more than that: they are fewer when two files have the same name
    or a name does not end in [.pdf]. *)
Theorem X22_count_bounds_the_uploads {S} (svc : Service S)
    (os : FileSystem) (fuel : nat) (files : list Upload)
    (store_name : option str) (display_name : str) (w : World S) :
  let run :=
    ingest_uploaded_pdfs svc os fuel files store_name display_name w in
  let sent := new_events w (snd run) in
  length (imports_of sent) <= length (uploads_of sent)
  /\ length (uploads_of sent) <= length files
  /\ (forall n r, fst run = Ok (n, r) -> n = Z.of_nat (length files)).
Proof.
  intros run sent. unfold sent, run. destruct files as [|file files].
  - simpl. rewrite (new_events_app w w []) by now rewrite app_nil_r.
    simpl. repeat split; auto. intros n r H. now injection H as <- _.
  - destruct (ingest_uploaded_pdfs_steps svc os fuel file files store_name
                display_name w) as [r0 [l [Hrun [Hr0 [Hlen _]]]]].
    cbv zeta in Hrun, Hlen.
    rewrite (ingest_uploaded_pdfs_trace svc os fuel file files store_name
               display_name w r0 l Hrun).
    destruct r0 as [[]|e|]; [| |congruence].
    + destruct (ingest_pdfs_uploads svc fuel (tmp_dir w) store_name
                  display_name (with_listing w l)) as [k [Hu [Hk [Hi _]]]].
      cbv zeta in Hu, Hk, Hi.
      pose proof (glob_pdf_length (tmp_dir w) (with_listing w l)) as Hg.
      cbn [listing with_listing] in Hg.
      assert (Hul : length (uploads_of
                      (new_events (with_listing w l)
                         (snd (ingest_pdfs svc fuel (tmp_dir w) store_name
                                 display_name (with_listing w l))))) = k).
      { rewrite Hu, expected_uploads_length, length_firstn. lia. }
      rewrite Hul. split; [lia|]. split; [lia|].
      rewrite Hrun. intros n r.
      destruct (ingest_pdfs svc fuel (tmp_dir w) store_name display_name
                  (with_listing w l)) as [[res|e|] w']; cbn [fst];
        intros H; try discriminate.
      now injection H as <- _.
    + simpl. split; [lia|]. split; [lia|].
      rewrite Hrun. cbn [fst]. discriminate.
Qed.

(** X23: when no uploaded name can make an entry ending in [.pdf] in the
    temporary folder (as pathlib resolves the name, no name designates
    such an entry, and none leaves the folder: an upper-case extension,
    say), nothing is uploaded or imported; if the run returns, it still
    reports the number of files as count, and for at least one file no
    store identifier. *)
Theorem X23_other_extensions_are_not_ingested {S} (svc : Service S)
    (os : FileSystem) (fuel : nat) (files : list Upload)
    (store_name : option str) (display_name : str) (w : World S) :
  forallb (fun f => negb (may_list_pdf (upload_name f))) files = true ->
  let run :=
    ingest_uploaded_pdfs svc os fuel files store_name display_name w in
  let sent := new_events w (snd run) in
  uploads_of sent = []
  /\ imports_of sent = []
  /\ (forall n r, fst run = Ok (n, r) ->
        n = Z.of_nat (length files) /\ (files <> [] -> r = None)).
Proof.
  intros Hnot run sent. unfold sent, run.
  destruct files as [|file files].
  - simpl. rewrite (new_events_app w w []) by now rewrite app_nil_r.
    split; [reflexivity|]. split; [reflexivity|].
    intros n r H. injection H as <- _. split; [reflexivity|congruence].
  - destruct (ingest_uploaded_pdfs_steps svc os fuel file files store_name
                display_name w) as [r0 [l [Hrun [Hr0 [_ [Hin _]]]]]].
    cbv zeta in Hrun, Hin.
    rewrite (ingest_uploaded_pdfs_trace svc os fuel file files store_name
               display_name w r0 l Hrun).
    destruct r0 as [[]|e|]; [| |congruence].
    + assert (Hglob : glob_pdf (tmp_dir w) (with_listing w l) = []).
      { unfold glob_pdf. cbn [listing with_listing].
        replace (filter (endswith (lit ".pdf")) (l (tmp_dir w)))
          with (@nil str); [reflexivity|].
        symmetry. apply filter_none. intros n Hn.
        destruct (Hin n Hn) as [f [Hf Hd]].
        rewrite forallb_forall in Hnot. specialize (Hnot f Hf).
        apply negb_true_iff in Hnot. unfold may_list_pdf in Hnot.
        destruct Hd as [Hd|Hd]; rewrite Hd in Hnot;
          [exact Hnot|discriminate]. }
      destruct (ingest_pdfs_uploads svc fuel (tmp_dir w) store_name
                  display_name (with_listing w l)) as [k [Hu [Hk [Hi _]]]].
      cbv zeta in Hu, Hk, Hi. rewrite Hglob in Hu, Hk. simpl in Hk.
      assert (k = 0) as -> by lia. simpl in Hu.
      split; [exact Hu|]. split; [apply length_zero_iff_nil; lia|].
      rewrite Hrun, ingest_pdfs_cases, Hglob.
      intros n r.
      destruct (opt_truthy (env_api_key (with_listing w l)));
        [|cbn [fst]; discriminate].
      destruct (get_or_create_store svc store_name display_name
                  (with_listing w l)) as [[store|e|] w1]; cbn [fst];
        intros H; try discriminate.
      injection H as <- <-. now split.
    + split; [reflexivity|]. split; [reflexivity|].
      rewrite Hrun. cbn [fst]. discriminate.
Qed.

Lemma X23_other_extensions_are_not_ingested_witness :
  let files := [ {| upload_name := lit "scan.PDF" |} ] in
  let run :=
    ingest_uploaded_pdfs Fake.service plain_os 5 files None (lit "X") healthy in
  let sent := new_events healthy (snd run) in
  uploads_of sent = []
  /\ imports_of sent = []
  /\ (forall n r, fst run = Ok (n, r) ->
        n = Z.of_nat (length files) /\ (files <> [] -> r = None)).
Proof.
  apply (X23_other_extensions_are_not_ingested Fake.service plain_os 5
           [ {| upload_name := lit "scan.PDF" |} ] None (lit "X") healthy).
  reflexivity.
Defined.

(** A file with an upper-case extension is counted but not ingested; the
    store is created all the same. *)
Example other_extension_sample :
  let run := ingest_uploaded_pdfs Fake.service plain_os 5
               [ {| upload_name := lit "scan.PDF" |} ] None (lit "X") healthy in
  fst run = Ok (1%Z, None)
  /\ Fake.stores (remote (snd run)) = [lit "fileSearchStores/X"].
Proof. vm_compute. split; reflexivity. Qed.

(** How names are resolved: a trailing slash is dropped and the file is
    ingested as [x.pdf]; a name through a folder that is not there, and
    the empty name, raise; two files of one name are one entry. *)
Example resolved_names_sample :
  let run names :=
    ingest_uploaded_pdfs Fake.service plain_os 5
      (map (fun n => {| upload_name := n |}) names) None (lit "X") healthy in
  map (fun u => path_name (fst (fst u)))
    (uploads_of (trace (snd (run [lit "x.pdf/"])))) = [lit "x.pdf"]
  /\ fst (run [lit "x.pdf/"]) = Ok (1%Z, Some (lit "fileSearchStores/X"))
  /\ fst (run [lit "sub/x.pdf"]) = Raise (OSError (lit "FileNotFoundError"))
  /\ fst (run [[]]) = Raise (OSError (lit "IsADirectoryError"))
  /\ fst (run [lit "x.pdf"; lit "x.pdf"])
     = Ok (2%Z, Some (lit "fileSearchStores/X"))
  /\ length (uploads_of (trace (snd (run [lit "x.pdf"; lit "x.pdf"])))) = 1.
Proof. vm_compute. repeat split; reflexivity. Qed.

(** Through the presentation layer, two uploaded PDFs give the pair of
    their number and the name of the new store. *)
Example ingest_uploaded_pdfs_sample :
  fst (ingest_uploaded_pdfs Fake.service plain_os 5
         [ {| upload_name := lit "jung.pdf" |};
           {| upload_name := lit "rossi.pdf" |} ]
         None (lit "X") healthy)
  = Ok (2%Z, Some (lit "fileSearchStores/X")).
Proof. vm_compute. reflexivity. Qed.

(** X25: the pair [ingest_uploaded_pdfs] returns: for no file at all, a
    count of zero and the store identifier it was given, with nothing done
    to the world; for at least one file, the number of files together with
    what [ingest_pdfs] returned on the temporary folder, in the world that
    call left, the temporary folder removed. *)
Theorem X25_pair_of_count_and_store {S} (svc : Service S)
    (os : FileSystem) (fuel : nat) (files : list Upload)
    (store_name : option str) (display_name : str) (w : World S)
    (n : Z) (r : option str) :
  let run :=
    ingest_uploaded_pdfs svc os fuel files store_name display_name w in
  fst run = Ok (n, r) ->
  n = Z.of_nat (length files)
  /\ (files = [] -> r = store_name /\ snd run = w)
  /\ (files <> [] ->
      exists w1 w',
        ingest_pdfs svc fuel (tmp_dir w) store_name display_name w1
        = (Ok r, w')
        /\ snd run = remove_dir (tmp_dir w) w'
        /\ trace w1 = trace w /\ remote w1 = remote w
        /\ env_api_key w1 = env_api_key w).
Proof.
  intros run. unfold run. destruct files as [|file files].
  - simpl. intros H. injection H as <- <-.
    repeat split; auto. congruence.
  - destruct (ingest_uploaded_pdfs_steps svc os fuel file files store_name
                display_name w) as [r0 [l [Hrun _]]].
    cbv zeta in Hrun. rewrite Hrun.
    destruct r0 as [[]|e|]; cbn [fst]; try discriminate.
    destruct (ingest_pdfs svc fuel (tmp_dir w) store_name display_name
                (with_listing w l)) as [[res|e|] w'] eqn:Hin;
      cbn [fst snd]; intros H; try discriminate.
    injection H as <- <-.
    split; [reflexivity|]. split; [discriminate|].
    intros _. exists (with_listing w l), w'. now repeat split.
Qed.

Lemma X25_pair_of_count_and_store_witness :
  let files := [ {| upload_name := lit "jung.pdf" |};
                 {| upload_name := lit "rossi.pdf" |} ] in
  let run :=
    ingest_uploaded_pdfs Fake.service plain_os 5 files None (lit "X") healthy in
  2%Z = Z.of_nat (length files)
  /\ (files = [] -> Some (lit "fileSearchStores/X") = None /\ snd run = healthy)
  /\ (files <> [] ->
      exists w1 w',
        ingest_pdfs Fake.service 5 (tmp_dir healthy) None (lit "X") w1
        = (Ok (Some (lit "fileSearchStores/X")), w')
        /\ snd run = remove_dir (tmp_dir healthy) w'
        /\ trace w1 = trace healthy /\ remote w1 = remote healthy
        /\ env_api_key w1 = env_api_key healthy).
Proof.
  apply (X25_pair_of_count_and_store Fake.service plain_os 5
           [ {| upload_name := lit "jung.pdf" |};
             {| upload_name := lit "rossi.pdf" |} ] None (lit "X") healthy
           2%Z (Some (lit "fileSearchStores/X"))).
  vm_compute. reflexivity.
Defined.

(** ** Failures of the service (ask_question, suggest_questions, main) *)

(** X24: when the service refuses the generation request, asking, the
    suggestions and the command line of query.py each raise the exception
    of the service as it is, after that one request: none of them tries
    again or returns a default answer. *)
Theorem X24_refused_request_is_passed_on {S} (svc : Service S)
    (question store_name : str) (source_type : option str) (count : Z)
    (w : World S) (e : exn) (s1 s2 : S) :
  opt_truthy (env_api_key w) = true ->
  truthy store_name = true ->
  generate_content svc (file_search_request question store_name source_type)
    (remote w) = (Error e, s1) ->
  generate_content svc
    (file_search_request (suggest_prompt count) store_name source_type)
    (remote w) = (Error e, s2) ->
  ask_question svc question store_name source_type w
  = (Raise e,
     with_remote w s1
       (EGenerate (file_search_request question store_name source_type)))
  /\ query_main svc question store_name source_type w
     = (Raise e, [],
        with_remote w s1
          (EGenerate (file_search_request question store_name source_type)))
  /\ suggest_questions svc store_name source_type count w
     = (Raise e,
        with_remote w s2
          (EGenerate
             (file_search_request (suggest_prompt count) store_name
                source_type))).
Proof.
  intros Hkey Hstore Hask Hsuggest.
  split; [|split].
  - unfold ask_question, bind, call.
    now rewrite (get_client_ok w Hkey), Hask.
  - unfold query_main, call. rewrite (get_client_ok w Hkey).
    assert (Hreq : {| model := lit "gemini-2.5-flash"; contents := question;
                      tools := [ {| file_search_store_names := [store_name];
                                    metadata_filter :=
                                      build_metadata_filter source_type |} ] |}
                   = file_search_request question store_name source_type).
    { unfold file_search_request, GEMINI_MODEL.
      now rewrite metadata_filters_agree. }
    rewrite Hreq, Hask. reflexivity.
  - unfold suggest_questions. rewrite Hstore. cbn [negb].
    unfold bind, call. now rewrite (get_client_ok w Hkey), Hsuggest.
Qed.

Lemma X24_refused_request_is_passed_on_witness :
  let e := RemoteError (lit "UNAVAILABLE") in
  let ask := file_search_request (lit "Why?") (lit "stores/1") None in
  let suggest := file_search_request (suggest_prompt 3) (lit "stores/1") None in
  ask_question offline (lit "Why?") (lit "stores/1") None healthy
  = (Raise e, with_remote healthy (remote healthy) (EGenerate ask))
  /\ query_main offline (lit "Why?") (lit "stores/1") None healthy
     = (Raise e, [], with_remote healthy (remote healthy) (EGenerate ask))
  /\ suggest_questions offline (lit "stores/1") None 3 healthy
     = (Raise e, with_remote healthy (remote healthy) (EGenerate suggest)).
Proof.
  apply (X24_refused_request_is_passed_on offline (lit "Why?")
           (lit "stores/1") None 3 healthy
           (RemoteError (lit "UNAVAILABLE")) (remote healthy) (remote healthy));
    reflexivity.
Defined.
